(** * PhysiPro: authentication core

    A shallow embedding of the authentication core of the PhysiPro mobile
    client: the CPF validators ([utils/validators]), the session store
    ([services/auth-service.ts]), the auth reducer and the [useAuth] hook
    ([hooks/useAuth]) and the route guard ([navigation/AuthGuard]). *)

From Stdlib Require Import ZArith Lia Bool Ascii String List.
From stdpp Require Import base option list gmap strings.

Local Open Scope Z_scope.

(** ** JavaScript values used by the code *)

Module Js.

(** A JavaScript number that is either an exact integer or [NaN].  All
    numbers the validators compute are small integers, which IEEE doubles
    represent exactly; [None] is [NaN]. *)
Definition num := option Z.

Definition add (a b : num) : num :=
  match a, b with Some x, Some y => Some (x + y) | _, _ => None end.

Definition mul (a b : num) : num :=
  match a, b with Some x, Some y => Some (x * y) | _, _ => None end.

Definition sub (a b : num) : num :=
  match a, b with Some x, Some y => Some (x - y) | _, _ => None end.

(** [a % b]: the remainder has the sign of the dividend. *)
Definition rem (a b : num) : num :=
  match a, b with
  | Some x, Some y => if y =? 0 then None else Some (Z.rem x y)
  | _, _ => None
  end.

(** [a < b]: every comparison with [NaN] is false. *)
Definition lt (a b : num) : bool :=
  match a, b with Some x, Some y => x <? y | _, _ => false end.

(** [a === b] on numbers: [NaN] equals nothing, itself included. *)
Definition strict_eq (a b : num) : bool :=
  match a, b with Some x, Some y => x =? y | _, _ => false end.

(** [a !== b] is the negation of [===]. *)
Definition strict_ne (a b : num) : bool := negb (strict_eq a b).

(** The character class [\d] of a regular expression without the unicode
    flag: the ten ASCII digits. *)
Definition is_digit (c : ascii) : bool :=
  let n := nat_of_ascii c in (48 <=? n)%nat && (n <=? 57)%nat.

(** [s.replace(/\D/g, '')]: drop every character that is not a digit. *)
Fixpoint replace_nondigits (s : string) : string :=
  match s with
  | EmptyString => EmptyString
  | String c r =>
      if is_digit c then String c (replace_nondigits r)
      else replace_nondigits r
  end.

(** [s.charAt(i)]: the character at index [i]; [None] stands for the empty
    string that [charAt] returns out of range. *)
Definition charAt (s : string) (i : nat) : option ascii := String.get i s.

(** [parseInt] on the result of [charAt], a string of at most one
    character: a digit gives its value, anything else (the empty string
    too) gives [NaN]. *)
Definition parseInt (c : option ascii) : num :=
  match c with
  | Some a =>
      if is_digit a then Some (Z.of_nat (nat_of_ascii a) - 48) else None
  | None => None
  end.

(** [s.slice(a, b)] for indices [0 <= a <= b]: the characters from [a] up to
    [b] (excluded), fewer when the string ends before. *)
Definition slice (s : string) (a b : nat) : string :=
  String.substring a (b - a) s.

(** [s.slice(a)]: the characters from [a] to the end. *)
Definition slice_from (s : string) (a : nat) : string :=
  String.substring a (String.length s - a) s.

(** [s.substring(1)]: the string without its first character.  Strings are
    modelled by their bytes; the paths this is applied to begin with the
    ASCII character ['/']. *)
Definition substring1 (s : string) : string :=
  match s with EmptyString => EmptyString | String _ r => r end.

(** [s.length]: the number of UTF-16 code units of the text, read off its
    UTF-8 bytes: one for an ASCII byte and for the lead byte of a two- or
    three-byte sequence, two (a surrogate pair) for the lead byte of a
    four-byte sequence, none for a continuation byte. *)
Definition code_units (c : ascii) : nat :=
  let n := nat_of_ascii c in
  if (n <? 128)%nat then 1%nat
  else if (n <? 192)%nat then 0%nat
  else if (n <? 240)%nat then 1%nat
  else 2%nat.

Fixpoint length_utf16 (s : string) : nat :=
  match s with
  | EmptyString => 0%nat
  | String c r => (code_units c + length_utf16 r)%nat
  end.

(** The character class [[a-zA-Z]]. *)
Definition is_letter (c : ascii) : bool :=
  let n := nat_of_ascii c in
  ((65 <=? n)%nat && (n <=? 90)%nat) || ((97 <=? n)%nat && (n <=? 122)%nat).

(** [/[...]/.test(s)] for a single character class: some character of the
    string is in the class. *)
Fixpoint test_class (p : ascii -> bool) (s : string) : bool :=
  match s with
  | EmptyString => false
  | String c r => p c || test_class p r
  end.

End Js.

(** ** utils/validators *)

Module Validators.

Fixpoint all_chars_eq (c : ascii) (s : string) : bool :=
  match s with
  | EmptyString => true
  | String c' r => Ascii.eqb c' c && all_chars_eq c r
  end.

(** [/^(\d)\1+$/.test(s)]: a digit followed by one or more copies of
    itself, and nothing else. *)
Definition same_digit_repeated (s : string) : bool :=
  match s with
  | String c (String _ _ as r) => Js.is_digit c && all_chars_eq c r
  | _ => false
  end.

(** The loop [for (let i = 0; i < n; i++) sum += parseInt(cleanCpf.charAt(i)) * (w - i)]
    started with [sum = 0]. *)
Definition weighted_sum (cleanCpf : string) (n : nat) (w : Z) : Js.num :=
  fold_left
    (fun sum i =>
       Js.add sum
         (Js.mul (Js.parseInt (Js.charAt cleanCpf i)) (Some (w - Z.of_nat i))))
    (seq 0 n) (Some 0).

(** [remainder < 2 ? 0 : 11 - remainder] *)
Definition check_digit_of (remainder : Js.num) : Js.num :=
  if Js.lt remainder (Some 2) then Some 0 else Js.sub (Some 11) remainder.

Definition isCpfValid (cpf : string) : bool :=
  let cleanCpf := Js.replace_nondigits cpf in
  if negb (String.length cleanCpf =? 11)%nat then false
  else if same_digit_repeated cleanCpf then false
  else
    let sum := weighted_sum cleanCpf 9 10 in
    let remainder := Js.rem sum (Some 11) in
    let firstCheckDigit := check_digit_of remainder in
    if Js.strict_ne (Js.parseInt (Js.charAt cleanCpf 9)) firstCheckDigit
    then false
    else
      let sum := weighted_sum cleanCpf 10 11 in
      let remainder := Js.rem sum (Some 11) in
      let secondCheckDigit := check_digit_of remainder in
      Js.strict_eq (Js.parseInt (Js.charAt cleanCpf 10)) secondCheckDigit.

Definition formatCpf (cpf : string) : string :=
  let cleanCpf := Js.replace_nondigits cpf in
  if (String.length cleanCpf <=? 3)%nat then cleanCpf
  else if (String.length cleanCpf <=? 6)%nat then
    Js.slice cleanCpf 0 3 +:+ "." +:+ Js.slice_from cleanCpf 3
  else if (String.length cleanCpf <=? 9)%nat then
    Js.slice cleanCpf 0 3 +:+ "." +:+ Js.slice cleanCpf 3 6 +:+ "."
      +:+ Js.slice_from cleanCpf 6
  else
    Js.slice cleanCpf 0 3 +:+ "." +:+ Js.slice cleanCpf 3 6 +:+ "."
      +:+ Js.slice cleanCpf 6 9 +:+ "-" +:+ Js.slice cleanCpf 9 11.

Definition isPasswordValid (password : string) : bool :=
  (6 <=? Js.length_utf16 password)%nat
  && Js.test_class Js.is_letter password
  && Js.test_class Js.is_digit password.

End Validators.

(** ** Regular expressions without captures *)

Module Regex.

(** The expressions the validators use: character classes, sequence and
    repetition; [Void] and [Alt] are what their derivatives add. *)
Inductive t :=
| Void
| Eps
| Class (p : ascii -> bool)
| Cat (a b : t)
| Alt (a b : t)
| Star (a : t).

(** [a+] *)
Definition Plus (a : t) : t := Cat a (Star a).

(** [a{2,}] *)
Definition AtLeast2 (a : t) : t := Cat a (Cat a (Star a)).

Fixpoint nullable (r : t) : bool :=
  match r with
  | Void => false
  | Eps => true
  | Class _ => false
  | Cat a b => nullable a && nullable b
  | Alt a b => nullable a || nullable b
  | Star _ => true
  end.

(** What is left to match once the character [c] is read. *)
Fixpoint deriv (c : ascii) (r : t) : t :=
  match r with
  | Void => Void
  | Eps => Void
  | Class p => if p c then Eps else Void
  | Cat a b =>
      if nullable a then Alt (Cat (deriv c a) b) (deriv c b)
      else Cat (deriv c a) b
  | Alt a b => Alt (deriv c a) (deriv c b)
  | Star a => Cat (deriv c a) (Star a)
  end.

(** [/^r$/.test(s)]: the whole string matches. *)
Fixpoint test (r : t) (s : string) : bool :=
  match s with
  | EmptyString => nullable r
  | String c rest => test (deriv c r) rest
  end.

End Regex.

Module EmailValidator.

Definition is_char (x : ascii) (c : ascii) : bool := Ascii.eqb c x.

(** [[a-zA-Z0-9._%+-]] *)
Definition local_char (c : ascii) : bool :=
  Js.is_letter c || Js.is_digit c || is_char "." c || is_char "_" c
  || is_char "%" c || is_char "+" c || is_char "-" c.

(** [[a-zA-Z0-9.-]] *)
Definition domain_char (c : ascii) : bool :=
  Js.is_letter c || Js.is_digit c || is_char "." c || is_char "-" c.

(** [/^[a-zA-Z0-9._%+-]+@[a-zA-Z0-9.-]+\.[a-zA-Z]{2,}$/] *)
Definition emailRegex : Regex.t :=
  Regex.Cat (Regex.Plus (Regex.Class local_char))
    (Regex.Cat (Regex.Class (is_char "@"))
       (Regex.Cat (Regex.Plus (Regex.Class domain_char))
          (Regex.Cat (Regex.Class (is_char "."))
             (Regex.AtLeast2 (Regex.Class Js.is_letter))))).

Definition isEmailValid (email : string) : bool := Regex.test emailRegex email.

End EmailValidator.

(** ** features/authentication/types *)

Module Types.

Inductive UserType := TRAINER | STUDENT | ADMIN.

(** The string value of each enum member. *)
Definition UserType_value (t : UserType) : string :=
  match t with
  | TRAINER => "trainer"
  | STUDENT => "student"
  | ADMIN => "admin"
  end.

Record User := mkUser {
  id : string;
  name : string;
  cpf : string;
  email : string;
  profileImage : option string;
  userType : UserType;
}.

Record LoginCredentials := mkCredentials {
  cred_cpf : string;
  cred_password : string;
}.

Record LoginResponse := mkResponse {
  resp_user : User;
  resp_token : string;
}.

Record AuthState := mkAuthState {
  user : option User;
  token : option string;
  isLoading : bool;
  error : option string;
  isAuthenticated : bool;
}.

Inductive AuthAction :=
| LOGIN_REQUEST
| LOGIN_SUCCESS (payload : LoginResponse)
| LOGIN_FAILURE (payload : string)
| LOGOUT.

End Types.

(** ** Asynchronous code with rejections *)

Module Async.

(** What a [throw] carries: an [Error] object with its message, or some
    other value. *)
Inductive Thrown := JsError (message : string) | NonError.

Inductive Outcome (A : Type) := Resolved (a : A) | Rejected (e : Thrown).
Arguments Resolved {A} a.
Arguments Rejected {A} e.

(** An [async] function over a mutable environment [S]; every [await]
    runs the awaited call to its end before the caller goes on. *)
Definition t (S A : Type) : Type := S -> Outcome A * S.

Definition ret {S A} (a : A) : t S A := fun s => (Resolved a, s).

Definition throw {S A} (e : Thrown) : t S A := fun s => (Rejected e, s).

Definition bind {S A B} (m : t S A) (k : A -> t S B) : t S B :=
  fun s =>
    match m s with
    | (Resolved a, s') => k a s'
    | (Rejected e, s') => (Rejected e, s')
    end.

(** [try { body } catch (error) { handler }] *)
Definition try_catch {S A} (body : t S A) (handler : Thrown -> t S A) : t S A :=
  fun s =>
    match body s with
    | (Resolved a, s') => (Resolved a, s')
    | (Rejected e, s') => handler e s'
    end.

(** [try { body } finally { cleanup }]: the cleanup runs on both exits and
    the outcome of the body stands unless the cleanup itself throws. *)
Definition finally {S A} (body : t S A) (cleanup : t S unit) : t S A :=
  fun s =>
    match body s with
    | (o, s') =>
        match cleanup s' with
        | (Resolved _, s'') => (o, s'')
        | (Rejected e, s'') => (Rejected e, s'')
        end
    end.

(** [Promise.all([a, b])]: both calls are started, in this order, whatever
    the other does; the result is the pair of their values, or the
    rejection of the first of them that rejects. *)
Definition all2 {S A B} (a : t S A) (b : t S B) : t S (A * B) :=
  fun s =>
    match a s with
    | (oa, s') =>
        match b s' with
        | (ob, s'') =>
            match oa, ob with
            | Resolved x, Resolved y => (Resolved (x, y), s'')
            | Rejected e, _ => (Rejected e, s'')
            | _, Rejected e => (Rejected e, s'')
            end
        end
    end.

(** Run a computation on a component of a larger environment. *)
Definition lift {S T A} (get : T -> S) (set : S -> T -> T) (m : t S A) : t T A :=
  fun w => match m (get w) with (o, s') => (o, set s' w) end.

End Async.

Notation "'let*' x ':=' m 'in' k" := (Async.bind m (fun x => k))
  (at level 10, x name, m at level 100, k at level 200).

(** ** The device's key-value store (@react-native-async-storage) *)

Module AsyncStorage.

(** Modelled from the spec: the key-value store is a library outside the
    repository, with the interface [get(key) -> string|absent],
    [set(key, value) -> ok|fail], [multiSet([(key,value)...]) -> ok|fail],
    [multiRemove([key...]) -> ok|fail] and atomic multi-key writes and
    deletes.  The store holds strings under string keys.  Each native call
    either goes through or throws and leaves the items as they were.  Which
    calls throw is decided by [faults], one entry per call, oldest first;
    once the entries are used up, calls go through. *)
Record t := mk {
  items : gmap string string;
  faults : list bool;
}.

Definition io_error : Async.Thrown := Async.JsError "AsyncStorage I/O error".

(** One native call whose effect on the items is [f] and whose value is
    computed by [v] from the items before the call. *)
Definition call {A} (v : gmap string string -> A)
    (f : gmap string string -> gmap string string) : Async.t t A :=
  fun st =>
    match faults st with
    | true :: rest => (Async.Rejected io_error, mk (items st) rest)
    | false :: rest => (Async.Resolved (v (items st)), mk (f (items st)) rest)
    | [] => (Async.Resolved (v (items st)), mk (f (items st)) [])
    end.

Definition getItem (key : string) : Async.t t (option string) :=
  call (fun m => m !! key) (fun m => m).

Definition setItem (key value : string) : Async.t t unit :=
  call (fun _ => tt) (fun m => <[key := value]> m).

Definition multiSet (keyValuePairs : list (string * string)) : Async.t t unit :=
  call (fun _ => tt)
    (fun m => fold_left (fun acc kv => <[kv.1 := kv.2]> acc) keyValuePairs m).

Definition multiRemove (keys : list string) : Async.t t unit :=
  call (fun _ => tt) (fun m => fold_left (fun acc k => delete k acc) keys m).

Definition removeItem (key : string) : Async.t t unit :=
  call (fun _ => tt) (fun m => delete key m).

End AsyncStorage.

(** ** JSON.parse and JSON.stringify on the stored user record *)

Module JSON.
Import Types.

(** What [JSON.parse] does with a text: it throws a [SyntaxError], or
    returns a falsy value ([null], [false], [0] or the empty string), or
    returns any other value, which the service hands on as a [User]. *)
Inductive Parsed := SyntaxError | Falsy | Value (u : User).

Class Codec := {
  stringify : User -> string;
  parse : string -> Parsed;
}.

(** What [stringify] writes for a user is a non-empty text that [parse]
    reads back as an object. *)
Class Lawful (C : Codec) : Prop := {
  stringify_nonempty : forall u, stringify u <> EmptyString;
  parse_stringify : forall u, exists v, parse (stringify u) = Value v;
}.

End JSON.

(** ** features/authentication/services/auth-service.ts *)

Module AuthService.
Import Types.

Definition AUTH_TOKEN_KEY : string := "@PhysiPro:authToken".
Definition USER_DATA_KEY : string := "@PhysiPro:userData".

Definition Svc (A : Type) : Type := Async.t AsyncStorage.t A.

(** [safeStorage]: every native call wrapped in [try]/[catch]. *)
Module safeStorage.

Definition getItem (key : string) : Svc (option string) :=
  Async.try_catch (AsyncStorage.getItem key) (fun _ => Async.ret None).

Definition setItem (key value : string) : Svc bool :=
  Async.try_catch
    (let* _ := AsyncStorage.setItem key value in Async.ret true)
    (fun _ => Async.ret false).

Definition multiSet (keyValuePairs : list (string * string)) : Svc bool :=
  Async.try_catch
    (let* _ := AsyncStorage.multiSet keyValuePairs in Async.ret true)
    (fun _ => Async.ret false).

Definition multiRemove (keys : list string) : Svc bool :=
  Async.try_catch
    (let* _ := AsyncStorage.multiRemove keys in Async.ret true)
    (fun _ => Async.ret false).

End safeStorage.

Section WithCodec.
Context {codec : JSON.Codec}.

Definition saveAuthData (data : LoginResponse) : Svc bool :=
  let keyValuePairs :=
    [ (AUTH_TOKEN_KEY, resp_token data);
      (USER_DATA_KEY, JSON.stringify (resp_user data)) ] in
  safeStorage.multiSet keyValuePairs.

(** The result is [None] for [null] and for any other falsy value that
    [JSON.parse] returns: the callers only test it for truth. *)
Definition getSavedUser : Svc (option User) :=
  let* userData := safeStorage.getItem USER_DATA_KEY in
  match userData with
  | None => Async.ret None
  | Some EmptyString => Async.ret None
  | Some text =>
      match JSON.parse text with
      | JSON.Value u => Async.ret (Some u)
      | JSON.Falsy => Async.ret None
      | JSON.SyntaxError => Async.ret None
      end
  end.

Definition getSavedToken : Svc (option string) :=
  safeStorage.getItem AUTH_TOKEN_KEY.

(** [!!token]: a string is truthy unless it is empty. *)
Definition truthy (token : option string) : bool :=
  match token with
  | None => false
  | Some EmptyString => false
  | Some _ => true
  end.

Definition isUserLoggedIn : Svc bool :=
  let* token := getSavedToken in
  Async.ret (truthy token).

Definition clearAuthData : Svc bool :=
  safeStorage.multiRemove [AUTH_TOKEN_KEY; USER_DATA_KEY].

Definition logout : Svc bool := clearAuthData.

Definition mock_response : LoginResponse :=
  {| resp_user :=
       {| id := "1";
          name := "Treinador";
          userType := TRAINER;
          cpf := "123.456.789-10";
          email := "john@example.com";
          profileImage := Some "https://via.placeholder.com/150" |};
     resp_token := "mock-jwt-token-would-be-here" |}.

Definition invalid_credentials : string := "CPF ou senha inválidos.".

(** The one-second delay that precedes the check is left out. *)
Definition login (credentials : LoginCredentials) : Svc LoginResponse :=
  if String.eqb (cred_cpf credentials) "123.456.789-10"
     && String.eqb (cred_password credentials) "password123"
  then
    let response := mock_response in
    let* _ := saveAuthData response in
    Async.ret response
  else Async.throw (Async.JsError invalid_credentials).

End WithCodec.

(** The functions of the module that [useAuth] calls. *)
Record Api := {
  api_login : LoginCredentials -> Svc LoginResponse;
  api_logout : Svc bool;
  api_isUserLoggedIn : Svc bool;
  api_getSavedUser : Svc (option User);
  api_getSavedToken : Svc (option string);
  api_clearAuthData : Svc bool;
}.

Definition api {codec : JSON.Codec} : Api :=
  {| api_login := login;
     api_logout := logout;
     api_isUserLoggedIn := isUserLoggedIn;
     api_getSavedUser := getSavedUser;
     api_getSavedToken := getSavedToken;
     api_clearAuthData := clearAuthData |}.

End AuthService.

(** ** features/authentication/hooks/useAuth *)

Module UseAuth.
Import Types.

Definition initialState : AuthState :=
  {| user := None;
     token := None;
     isLoading := true;
     error := None;
     isAuthenticated := false |}.

Definition authReducer (state : AuthState) (action : AuthAction) : AuthState :=
  match action with
  | LOGIN_REQUEST =>
      {| user := user state;
         token := token state;
         isLoading := true;
         error := None;
         isAuthenticated := isAuthenticated state |}
  | LOGIN_SUCCESS payload =>
      {| user := Some (resp_user payload);
         token := Some (resp_token payload);
         isLoading := false;
         error := None;
         isAuthenticated := true |}
  | LOGIN_FAILURE payload =>
      {| user := user state;
         token := token state;
         isLoading := false;
         error := Some payload;
         isAuthenticated := false |}
  | LOGOUT =>
      {| user := user initialState;
         token := token initialState;
         isLoading := false;
         error := error initialState;
         isAuthenticated := isAuthenticated initialState |}
  end.

(** What the hook owns, and the device store its effects reach. *)
Record World := mkWorld {
  state : AuthState;
  isInitialized : bool;
  storage : AsyncStorage.t;
}.

Definition Hook (A : Type) : Type := Async.t World A.

Definition dispatch (action : AuthAction) : Hook unit :=
  fun w =>
    (Async.Resolved tt,
     mkWorld (authReducer (state w) action) (isInitialized w) (storage w)).

Definition setIsInitialized (b : bool) : Hook unit :=
  fun w => (Async.Resolved tt, mkWorld (state w) b (storage w)).

(** A call into the service: it sees the store and nothing of the hook. *)
Definition service {A} (m : AuthService.Svc A) : Hook A :=
  Async.lift storage (fun st w => mkWorld (state w) (isInitialized w) st) m.

Section WithService.
Variable AuthService : AuthService.Api.

Definition checkAuthStatus : Hook unit :=
  Async.finally
    (Async.try_catch
       (let* isLoggedIn := service (AuthService.api_isUserLoggedIn AuthService) in
        if isLoggedIn : bool then
          let* loaded :=
            Async.all2
              (service (AuthService.api_getSavedUser AuthService))
              (service (AuthService.api_getSavedToken AuthService)) in
          let '(user, token) := loaded in
          match user, AuthService.truthy token, token with
          | Some u, true, Some tok =>
              dispatch (LOGIN_SUCCESS {| resp_user := u; resp_token := tok |})
          | _, _, _ =>
              let* clearSuccess :=
                service (AuthService.api_clearAuthData AuthService) in
              dispatch LOGOUT
          end
        else dispatch LOGOUT)
       (fun error =>
          let* _ :=
            Async.try_catch
              (let* _ := service (AuthService.api_clearAuthData AuthService) in
               Async.ret tt)
              (fun clearError => Async.ret tt) in
          dispatch LOGOUT))
    (setIsInitialized true).

Definition login (credentials : LoginCredentials) : Hook LoginResponse :=
  let* _ := dispatch LOGIN_REQUEST in
  Async.try_catch
    (let* response := service (AuthService.api_login AuthService credentials) in
     let* _ := dispatch (LOGIN_SUCCESS response) in
     Async.ret response)
    (fun error =>
       let* _ :=
         dispatch
           (LOGIN_FAILURE
              match error with
              | Async.JsError message => message
              | Async.NonError => "Failed to login"
              end) in
       Async.throw error).

Definition logout : Hook unit :=
  Async.try_catch
    (let* success := service (AuthService.api_logout AuthService) in
     dispatch LOGOUT)
    (fun error => dispatch LOGOUT).

End WithService.

(** The world in which the hook is mounted on a device. *)
Definition mount (st : AsyncStorage.t) : World :=
  {| state := initialState; isInitialized := false; storage := st |}.

End UseAuth.

(** ** navigation/AuthGuard *)

Module AuthGuard.
Import Types.

Definition PUBLIC_ROUTES : list string := ["login"; "register"; "forgot-password"].

Definition HEADER_HIDDEN_ROUTES : list string :=
  ["login"; "register"; "forgot-password"].

Definition ROLE_ROUTES (t : UserType) : string :=
  match t with
  | ADMIN => "admin"
  | TRAINER => "trainer"
  | STUDENT => "student"
  end.

(** [Object.values(ROLE_ROUTES)], in the order the keys were written. *)
Definition ROLE_ROUTES_values : list string :=
  [ROLE_ROUTES ADMIN; ROLE_ROUTES TRAINER; ROLE_ROUTES STUDENT].

(** [array.includes(x)] on strings *)
Definition includes (l : list string) (x : string) : bool :=
  existsb (String.eqb x) l.

(** [pathname.substring(1)] *)
Definition currentRoute (pathname : string) : string := Js.substring1 pathname.

(** [segments[0] || ''] *)
Definition currentModule (segments : list string) : string :=
  match segments with
  | [] => ""
  | s :: _ => s
  end.

Definition nonempty (s : string) : bool :=
  match s with EmptyString => false | _ => true end.

(** The effect of [useProtectedRoute]: the argument of the one
    [router.replace] call it makes, or [None] when it makes none. *)
Definition useProtectedRoute_effect
    (isAuthenticated isInitialized : bool) (user : option User)
    (pathname : string) (segments : list string) : option string :=
  if negb isInitialized then None
  else
    let inPublicRoute := includes PUBLIC_ROUTES (currentRoute pathname) in
    let inProtectedRoute := negb inPublicRoute in
    if inProtectedRoute && negb isAuthenticated then Some "/login"
    else
      match user with
      | Some u =>
          if inPublicRoute && isAuthenticated then
            let userRoleRoute := ROLE_ROUTES (userType u) in
            Some ("/" +:+ userRoleRoute)
          else if isAuthenticated && nonempty (currentModule segments)
                  && negb (String.eqb (currentModule segments) (ROLE_ROUTES (userType u)))
          then
            let isKnownModule := includes ROLE_ROUTES_values (currentModule segments) in
            if isKnownModule then
              let correctRoute := ROLE_ROUTES (userType u) in
              Some ("/" +:+ correctRoute)
            else None
          else None
      | None => None
      end.

Definition shouldHideHeader (pathname : string) : bool :=
  includes HEADER_HIDDEN_ROUTES (currentRoute pathname).

Definition guard_isLoading (isLoading isInitialized : bool) : bool :=
  isLoading || negb isInitialized.

End AuthGuard.

(** ** Statements about the validators, in the words of the specification *)

Module CpfSpec.

(** Every character of the string is a decimal digit. *)
Fixpoint all_digits (s : string) : bool :=
  match s with
  | EmptyString => true
  | String c r => Js.is_digit c && all_digits r
  end.

Definition digit_value (c : ascii) : Z := Z.of_nat (nat_of_ascii c) - 48.

(** The subsequence of the decimal digit characters of a string. *)
Definition digit_chars (s : string) : list ascii :=
  filter (fun c => Js.is_digit c = true) (list_ascii_of_string s).

Definition digit_subsequence (s : string) : string :=
  string_of_list_ascii (digit_chars s).

(** The digits that remain once every other character is removed. *)
Definition digits (s : string) : list Z := map digit_value (digit_chars s).

(** [Σ_{i < n} ds[i] * (w - i)] *)
Fixpoint weighted (ds : list Z) (n : nat) (w : Z) : Z :=
  match n with
  | O => 0
  | S k => weighted ds k w + nth k ds 0 * (w - Z.of_nat k)
  end.

(** The check digit over the first [n] digits, with weights [n + 1] down
    to [2]: [11 - (Σ mod 11)], and [0] when the remainder is below [2]. *)
Definition check_digit (ds : list Z) (n : nat) : Z :=
  let r := weighted ds n (Z.of_nat n + 1) mod 11 in
  if r <? 2 then 0 else 11 - r.

Definition all_identical (ds : list Z) : Prop :=
  exists x, Forall (fun d => d = x) ds.

Definition valid (s : string) : Prop :=
  let ds := digits s in
  length ds = 11%nat
  /\ ~ all_identical ds
  /\ nth 9 ds 0 = check_digit ds 9
  /\ nth 10 ds 0 = check_digit ds 10.

(** Remove the mask characters ['.'] and ['-']. *)
Fixpoint strip_mask (s : string) : string :=
  match s with
  | EmptyString => EmptyString
  | String c r =>
      if Ascii.eqb c "." || Ascii.eqb c "-" then strip_mask r
      else String c (strip_mask r)
  end.

Fixpoint last_char (s : string) : option ascii :=
  match s with
  | EmptyString => None
  | String c EmptyString => Some c
  | String _ r => last_char r
  end.

(** The last digit of a formatted CPF replaced by [c]. *)
Definition with_last_digit (s : string) (c : ascii) : string :=
  String.substring 0 (String.length s - 1) s +:+ String c EmptyString.

End CpfSpec.

(** ** Statements about the auth state, the session store and the guard *)

Module AuthSpec.
Import Types.

(** The logged-out state: nothing held, nothing in flight. *)
Definition logged_out : AuthState :=
  {| user := None;
     token := None;
     isLoading := false;
     error := None;
     isAuthenticated := false |}.

(** The state reached from the initial one by dispatching [actions], oldest
    first. *)
Definition reached (actions : list AuthAction) : AuthState :=
  fold_left UseAuth.authReducer actions UseAuth.initialState.

Definition is_success (a : AuthAction) : bool :=
  match a with LOGIN_SUCCESS _ => true | _ => false end.

Definition is_request (a : AuthAction) : bool :=
  match a with LOGIN_REQUEST => true | _ => false end.

(** The most recent action was [LOGIN_SUCCESS]. *)
Definition last_was_success (actions : list AuthAction) : bool :=
  match last actions with Some a => is_success a | None => false end.

(** The most recent action other than [LOGIN_REQUEST] was [LOGIN_SUCCESS]. *)
Definition last_outcome_was_success (actions : list AuthAction) : bool :=
  last_was_success (filter (fun a => is_request a = false) actions).

(** The invariant as the specification words it. *)
Definition authenticated_iff_last_success (actions : list AuthAction) : Prop :=
  isAuthenticated (reached actions) = true
  <-> (user (reached actions) <> None
       /\ token (reached actions) <> None
       /\ last_was_success actions = true).

(** The state a successful login leaves. *)
Definition authenticated_as (u : User) (tok : string) : AuthState :=
  {| user := Some u;
     token := Some tok;
     isLoading := false;
     error := None;
     isAuthenticated := true |}.

End AuthSpec.

Module StoreSpec.
Import Types AuthService.

(** The stored user record is one that [getSavedUser] can hand out. *)
Definition parsable_user {codec : JSON.Codec} (m : gmap string string) : bool :=
  match m !! USER_DATA_KEY with
  | Some (String c r) =>
      match JSON.parse (String c r) with JSON.Value _ => true | _ => false end
  | _ => false
  end.

(** The store holds exactly one component of a session: a token and no
    parsable user record, or a user record and no token, an empty token
    counting as none. *)
Definition partial_session {codec : JSON.Codec} (m : gmap string string) : Prop :=
  (is_Some (m !! AUTH_TOKEN_KEY) /\ parsable_user m = false)
  \/ (is_Some (m !! USER_DATA_KEY) /\ truthy (m !! AUTH_TOKEN_KEY) = false).

Definition both_absent (m : gmap string string) : Prop :=
  m !! AUTH_TOKEN_KEY = None /\ m !! USER_DATA_KEY = None.

Definition both_present (m : gmap string string) : Prop :=
  is_Some (m !! AUTH_TOKEN_KEY) /\ is_Some (m !! USER_DATA_KEY).

(** The operations that write the session keys. *)
Inductive StoreOp := Save (data : LoginResponse) | Clear.

Definition run_op {codec : JSON.Codec} (op : StoreOp) : Svc bool :=
  match op with
  | Save data => saveAuthData data
  | Clear => clearAuthData
  end.

Fixpoint run_ops {codec : JSON.Codec} (ops : list StoreOp)
    (st : AsyncStorage.t) : AsyncStorage.t :=
  match ops with
  | [] => st
  | op :: rest => run_ops rest (run_op op st).2
  end.

(** Loading the session: the two reads [checkAuthStatus] joins. *)
Definition load {codec : JSON.Codec} : Svc (option User * option string) :=
  Async.all2 getSavedUser getSavedToken.

(** The store once one more native call has used up its fault entry. *)
Definition tick (st : AsyncStorage.t) : AsyncStorage.t :=
  AsyncStorage.mk (AsyncStorage.items st) (tail (AsyncStorage.faults st)).

(** The next native call throws. *)
Definition faulty (st : AsyncStorage.t) : bool :=
  match AsyncStorage.faults st with true :: _ => true | _ => false end.

(** What [getSavedUser] makes of the text read under the user key. *)
Definition user_of_text {codec : JSON.Codec} (userData : option string) : option User :=
  match userData with
  | Some (String c r) =>
      match JSON.parse (String c r) with JSON.Value u => Some u | _ => None end
  | _ => None
  end.

(** What [saveAuthData] leaves behind: no session key, or a token together
    with the text of a user record. *)
Definition saved_or_cleared {codec : JSON.Codec} (m : gmap string string) : Prop :=
  both_absent m
  \/ exists t u, m !! AUTH_TOKEN_KEY = Some t
                 /\ m !! USER_DATA_KEY = Some (JSON.stringify u).

(** A complete pair or nothing. *)
Definition complete_or_nothing {A B} (o : Async.Outcome (option A * option B)) : Prop :=
  match o with
  | Async.Resolved (Some _, Some _) => True
  | Async.Resolved (None, None) => True
  | _ => False
  end.

(** The edge-case policy as the specification words it: from a store that
    holds a partial session, [checkAuthStatus] ends logged out with both
    keys removed. *)
Definition clears_partial_session {codec : JSON.Codec} (st : AsyncStorage.t) : Prop :=
  partial_session (AsyncStorage.items st) ->
  let w' := (UseAuth.checkAuthStatus api (UseAuth.mount st)).2 in
  UseAuth.state w' = AuthSpec.logged_out
  /\ both_absent (AsyncStorage.items (UseAuth.storage w')).

(** What a read of [key] gives when the next native call is made on [st]. *)
Definition read (key : string) (st : AsyncStorage.t) : option string :=
  if faulty st then None else AsyncStorage.items st !! key.

(** A stand-in for the platform's JSON, on which statements can be run: it
    writes the fields of a user between braces and reads any text that
    opens with a brace as the user given. *)
Definition sample_codec (u0 : User) : JSON.Codec :=
  {| JSON.stringify u :=
       "{" +:+ id u +:+ "," +:+ name u +:+ "," +:+ cpf u +:+ ","
         +:+ email u +:+ "," +:+ UserType_value (userType u) +:+ "}";
     JSON.parse text :=
       match text with
       | String "{" _ => JSON.Value u0
       | _ => JSON.SyntaxError
       end |}.

End StoreSpec.

Module GuardSpec.
Import Types AuthGuard.

(** The redirect as the specification words it, on the first path segment. *)
Definition claimed_redirect (isAuthenticated : bool) (role : UserType)
    (segment : string) : option string :=
  if bool_decide (segment ∈ PUBLIC_ROUTES) && isAuthenticated
  then Some ("/" +:+ ROLE_ROUTES role)
  else if negb (bool_decide (segment ∈ PUBLIC_ROUTES)) && negb isAuthenticated
  then Some "/login"
  else if isAuthenticated
          && bool_decide (segment ∈ ROLE_ROUTES_values)
          && negb (bool_decide (segment = ROLE_ROUTES role))
  then Some ("/" +:+ ROLE_ROUTES role)
  else None.

End GuardSpec.

(** ** features/authentication/components/CpfInput *)

Module CpfInput.

(** What [handleChangeText] passes to [onChangeText] and to [onValidChange]. *)
Definition handleChangeText (text : string) : string * bool :=
  let numericValue := Js.replace_nondigits text in
  let formattedCpf := Validators.formatCpf numericValue in
  (formattedCpf,
   if (Js.length_utf16 formattedCpf =? 14)%nat
   then Validators.isCpfValid formattedCpf
   else false).

(** What [handleBlur] passes to [onValidChange]; [None] when the value is
    empty and nothing is reported. *)
Definition handleBlur (value : string) : option bool :=
  match value with
  | EmptyString => None
  | _ => Some (Validators.isCpfValid value)
  end.

(** [displayError]: the [error] prop when it is a non-empty string,
    otherwise the field's own message, if any. *)
Definition displayError (error : option string) (isTouched : bool)
    (value : string) : option string :=
  match error with
  | Some (String c r) => Some (String c r)
  | _ =>
      if isTouched && (0 <? Js.length_utf16 value)%nat
         && (Js.length_utf16 value <? 14)%nat
      then Some "CPF incompleto"
      else if isTouched && (Js.length_utf16 value =? 14)%nat
              && negb (Validators.isCpfValid value)
      then Some "CPF inválido"
      else None
  end.

End CpfInput.

(** ** features/authentication/screens/LoginScreen *)

Module LoginScreen.

(** The state of the screen that decides a login: the two fields and the
    flag the CPF field reports. *)
Record Form := mkForm {
  cpf : string;
  password : string;
  isCpfValid : bool;
}.

Definition initialForm : Form :=
  {| cpf := ""; password := ""; isCpfValid := false |}.

(** What the user does to the two fields. *)
Inductive Event :=
| CpfChangeText (text : string)
| CpfBlur
| PasswordChangeText (text : string).

Definition handle (f : Form) (e : Event) : Form :=
  match e with
  | CpfChangeText text =>
      let '(formattedCpf, isValid) := CpfInput.handleChangeText text in
      {| cpf := formattedCpf; password := password f; isCpfValid := isValid |}
  | CpfBlur =>
      match CpfInput.handleBlur (cpf f) with
      | Some isValid =>
          {| cpf := cpf f; password := password f; isCpfValid := isValid |}
      | None => f
      end
  | PasswordChangeText text =>
      {| cpf := cpf f; password := text; isCpfValid := isCpfValid f |}
  end.

Definition isFormValid (f : Form) : bool :=
  isCpfValid f && (6 <=? Js.length_utf16 (password f))%nat.

Definition login_alert_fallback : string :=
  "Ocorreu um erro ao tentar fazer login. Tente novamente.".

(** [handleLogin]: the result is the message of the alert it shows, if any. *)
Definition handleLogin (AuthService : AuthService.Api) (f : Form)
    : UseAuth.Hook (option string) :=
  if negb (isFormValid f) then Async.ret None
  else
    Async.try_catch
      (let* _ :=
         UseAuth.login AuthService
           {| Types.cred_cpf := cpf f; Types.cred_password := password f |} in
       Async.ret None)
      (fun error =>
         Async.ret
           (Some match error with
                 | Async.JsError message => message
                 | Async.NonError => login_alert_fallback
                 end)).

End LoginScreen.

(** ** app/index *)

Module AppIndex.
Import Types.

Inductive Screen := Spinner | Redirect (href : string).

(** What the [userType] field of the held user is at run time: a member of
    the enum, or some other value, which a record read back from storage
    may carry and which the [switch] sends to its [default] branch. *)
Inductive RoleValue := Role (t : UserType) | UnknownRole.

(** The role value of a user built by the typed code. *)
Definition role_of (u : User) : RoleValue := Role (userType u).

(** [Index] reads of the user only whether there is one and its
    [userType]; [user] is that field, [None] when no user is held. *)
Definition Index (isAuthenticated isInitialized : bool)
    (user : option RoleValue) : Screen :=
  if negb isInitialized then Spinner
  else if negb isAuthenticated then Redirect "/login"
  else
    match user with
    | Some userType =>
        match userType with
        | Role ADMIN => Redirect "/admin"
        | Role TRAINER => Redirect "/trainer"
        | Role STUDENT => Redirect "/student"
        | UnknownRole => Redirect "/login"
        end
    | None => Redirect "/login"
    end.

End AppIndex.

(** ** app/_layout *)

Module RootLayout.

Definition TEST_KEY : string := "@PhysiPro:test".

Definition testAsyncStorage : Async.t AsyncStorage.t bool :=
  Async.try_catch
    (let* _ := AsyncStorage.setItem TEST_KEY "test" in
     let* value := AsyncStorage.getItem TEST_KEY in
     let* _ := AsyncStorage.removeItem TEST_KEY in
     Async.ret (bool_decide (value = Some "test")))
    (fun error =>
       let* _ :=
         Async.try_catch (AsyncStorage.removeItem TEST_KEY)
           (fun _ => Async.ret tt) in
       Async.ret false).

(** The state of the layout and the store it probes. *)
Record World := mkWorld {
  appIsReady : bool;
  asyncStorageError : bool;
  storage : AsyncStorage.t;
}.

Definition setAppIsReady (b : bool) : Async.t World unit :=
  fun w => (Async.Resolved tt, mkWorld b (asyncStorageError w) (storage w)).

Definition setAsyncStorageError (b : bool) : Async.t World unit :=
  fun w => (Async.Resolved tt, mkWorld (appIsReady w) b (storage w)).

(** [prepare], without its one-second wait and the splash screen. *)
Definition prepare : Async.t World unit :=
  Async.finally
    (Async.try_catch
       (let* asyncStorageWorks :=
          Async.lift storage
            (fun st w => mkWorld (appIsReady w) (asyncStorageError w) st)
            testAsyncStorage in
        if negb asyncStorageWorks then setAsyncStorageError true
        else Async.ret tt)
       (fun e => Async.ret tt))
    (setAppIsReady true).

Inductive Rendered := Loading | StorageError | App.

Definition render (w : World) : Rendered :=
  if negb (appIsReady w) then Loading
  else if asyncStorageError w then StorageError
  else App.

Definition mount (st : AsyncStorage.t) : World :=
  {| appIsReady := false; asyncStorageError := false; storage := st |}.

End RootLayout.

Module LayoutSpec.

(** The first three native calls all go through. *)
Definition three_calls_go_through (st : AsyncStorage.t) : bool :=
  forallb negb (take 3 (AsyncStorage.faults st)).

End LayoutSpec.

(** ** Statements about the password and e-mail validators *)

Module RegexSpec.

(** The language of an expression: the strings it matches as a whole. *)
Inductive lang : Regex.t -> string -> Prop :=
| lang_eps : lang Regex.Eps EmptyString
| lang_class (p : ascii -> bool) (c : ascii) :
    p c = true -> lang (Regex.Class p) (String c EmptyString)
| lang_cat (a b : Regex.t) (s1 s2 : string) :
    lang a s1 -> lang b s2 -> lang (Regex.Cat a b) (s1 +:+ s2)
| lang_alt_l (a b : Regex.t) (s : string) :
    lang a s -> lang (Regex.Alt a b) s
| lang_alt_r (a b : Regex.t) (s : string) :
    lang b s -> lang (Regex.Alt a b) s
| lang_star_nil (a : Regex.t) : lang (Regex.Star a) EmptyString
| lang_star_cons (a : Regex.t) (s1 s2 : string) :
    lang a s1 -> lang (Regex.Star a) s2 -> lang (Regex.Star a) (s1 +:+ s2).

(** Every character of the string is in the class. *)
Fixpoint all_in (p : ascii -> bool) (s : string) : bool :=
  match s with
  | EmptyString => true
  | String c r => p c && all_in p r
  end.

(** How many times a character occurs in a string. *)
Fixpoint count_char (x : ascii) (s : string) : nat :=
  match s with
  | EmptyString => 0%nat
  | String c r => ((if Ascii.eqb c x then 1 else 0) + count_char x r)%nat
  end.

(** An address of the form [local@domain.tld]. *)
Definition email_shape (s : string) : Prop :=
  exists localpart domain tld : string,
    s = localpart +:+ "@" +:+ domain +:+ "." +:+ tld
    /\ localpart <> EmptyString
    /\ all_in EmailValidator.local_char localpart = true
    /\ domain <> EmptyString
    /\ all_in EmailValidator.domain_char domain = true
    /\ (2 <= String.length tld)%nat
    /\ all_in Js.is_letter tld = true.

End RegexSpec.

(** * Proofs *)

(** ** The validators *)

Module CpfProofs.
Import Js Validators CpfSpec.

Local Arguments is_digit : simpl never.

Lemma replace_nondigits_all_digits (s : string) :
  all_digits (replace_nondigits s) = true.
Proof.
  induction s as [|c r IH]; simpl; [reflexivity|].
  destruct (is_digit c) eqn:Hc; simpl; [rewrite Hc|]; assumption.
Qed.

Lemma replace_nondigits_fixed (s : string) :
  all_digits s = true -> replace_nondigits s = s.
Proof.
  induction s as [|c r IH]; simpl; [reflexivity|].
  intros [Hc Hr]%andb_true_iff. rewrite Hc, (IH Hr). reflexivity.
Qed.

Lemma replace_nondigits_idem (s : string) :
  replace_nondigits (replace_nondigits s) = replace_nondigits s.
Proof. apply replace_nondigits_fixed, replace_nondigits_all_digits. Qed.

Lemma replace_nondigits_chars (s : string) :
  list_ascii_of_string (replace_nondigits s) = digit_chars s.
Proof.
  unfold digit_chars.
  induction s as [|c r IH]; simpl; [reflexivity|].
  rewrite filter_cons. destruct (is_digit c) eqn:Hc.
  - rewrite decide_True by reflexivity. simpl. f_equal. exact IH.
  - rewrite decide_False by discriminate. exact IH.
Qed.

Lemma replace_nondigits_subsequence (s : string) :
  replace_nondigits s = digit_subsequence s.
Proof.
  unfold digit_subsequence. rewrite <- replace_nondigits_chars.
  symmetry. apply string_of_list_ascii_of_string.
Qed.

Lemma digits_clean (s : string) :
  digits s = map digit_value (list_ascii_of_string (replace_nondigits s)).
Proof. unfold digits. rewrite replace_nondigits_chars. reflexivity. Qed.

Lemma length_chars (s : string) :
  length (list_ascii_of_string s) = String.length s.
Proof. induction s; simpl; congruence. Qed.

(** A digit character carries a value between 0 and 9. *)
Lemma digit_value_range (c : ascii) :
  is_digit c = true -> 0 <= digit_value c <= 9.
Proof.
  unfold is_digit, digit_value. cbv zeta.
  intros [H1 H2]%andb_true_iff.
  apply Nat.leb_le in H1. apply Nat.leb_le in H2. lia.
Qed.

Lemma digit_value_inj (a b : ascii) :
  digit_value a = digit_value b -> a = b.
Proof.
  unfold digit_value. intros H.
  assert (nat_of_ascii a = nat_of_ascii b) as E by lia.
  rewrite <- (ascii_nat_embedding a), <- (ascii_nat_embedding b), E.
  reflexivity.
Qed.

(** Reading a character of an all-digit string gives the digit there. *)
Lemma parseInt_charAt (c : string) (i : nat) :
  all_digits c = true -> (i < String.length c)%nat ->
  parseInt (charAt c i) = Some (nth i (map digit_value (list_ascii_of_string c)) 0).
Proof.
  unfold charAt. revert i.
  induction c as [|a r IH]; simpl; intros i Hd Hi; [lia|].
  apply andb_true_iff in Hd as [Ha Hr].
  destruct i as [|i]; simpl.
  - rewrite Ha. reflexivity.
  - apply IH; [assumption | lia].
Qed.

Lemma weighted_sum_step (c : string) (n : nat) (w : Z) :
  weighted_sum c (S n) w
  = Js.add (weighted_sum c n w)
      (Js.mul (parseInt (charAt c n)) (Some (w - Z.of_nat n))).
Proof.
  unfold weighted_sum. rewrite seq_S, fold_left_app. reflexivity.
Qed.

(** The loop computes the weighted sum of the leading digits. *)
Lemma weighted_sum_digits (c : string) (n : nat) (w : Z) :
  all_digits c = true -> (n <= String.length c)%nat ->
  weighted_sum c n w
  = Some (weighted (map digit_value (list_ascii_of_string c)) n w).
Proof.
  intros Hd. induction n as [|n IH]; intros Hn; [reflexivity|].
  rewrite weighted_sum_step, IH by lia.
  rewrite parseInt_charAt by (assumption || lia).
  reflexivity.
Qed.

Lemma digits_range (c : string) (i : nat) :
  all_digits c = true ->
  0 <= nth i (map digit_value (list_ascii_of_string c)) 0 <= 9.
Proof.
  revert i. induction c as [|a r IH]; simpl; intros i Hd.
  - destruct i; lia.
  - apply andb_true_iff in Hd as [Ha Hr]. destruct i as [|i].
    + apply digit_value_range, Ha.
    + apply IH, Hr.
Qed.

Lemma weighted_nonneg (c : string) (n : nat) (w : Z) :
  all_digits c = true -> Z.of_nat n <= w ->
  0 <= weighted (map digit_value (list_ascii_of_string c)) n w.
Proof.
  intros Hd. induction n as [|n IH]; intros Hw; simpl weighted; [lia|].
  pose proof (digits_range c n Hd). nia.
Qed.

Lemma all_chars_eq_digits (a : ascii) (r : string) :
  all_chars_eq a r = true
  <-> Forall (fun d => d = digit_value a) (map digit_value (list_ascii_of_string r)).
Proof.
  induction r as [|b r IH]; simpl.
  - split; [constructor | reflexivity].
  - rewrite andb_true_iff, Forall_cons, IH, Ascii.eqb_eq.
    split; intros [H1 H2]; split; try assumption.
    + now subst.
    + now apply digit_value_inj.
Qed.

(** The regular expression test agrees with "all digits are identical" on a
    string of two or more digits. *)
Lemma same_digit_repeated_identical (c : string) :
  all_digits c = true -> (2 <= String.length c)%nat ->
  same_digit_repeated c = true
  <-> all_identical (map digit_value (list_ascii_of_string c)).
Proof.
  destruct c as [|a [|b r]]; simpl String.length; try lia.
  intros Hd _. unfold same_digit_repeated, all_identical.
  assert (is_digit a = true) as Ha
    by (simpl in Hd; now apply andb_true_iff in Hd as [? _]).
  rewrite Ha, andb_true_l, all_chars_eq_digits.
  change (list_ascii_of_string (String a (String b r)))
    with (a :: list_ascii_of_string (String b r)).
  rewrite map_cons. split.
  - intros H. exists (digit_value a). now constructor.
  - intros [x [Hx Hr]%Forall_cons]. now subst.
Qed.

Lemma check_digit_of_rem (x : Z) :
  0 <= x ->
  check_digit_of (Js.rem (Some x) (Some 11))
  = Some (if x mod 11 <? 2 then 0 else 11 - x mod 11).
Proof.
  intros Hx. unfold check_digit_of, Js.rem, Js.lt, Js.sub.
  change (11 =? 0) with false. cbv iota.
  rewrite Z.rem_mod_nonneg by lia.
  destruct (x mod 11 <? 2); reflexivity.
Qed.

Lemma strict_eq_Some (x y : Z) : Js.strict_eq (Some x) (Some y) = true <-> x = y.
Proof. unfold Js.strict_eq. apply Z.eqb_eq. Qed.

(** The verdict of [isCpfValid] is the check-digit rule on the digits. *)
Lemma isCpfValid_iff_valid (s : string) : isCpfValid s = true <-> valid s.
Proof.
  unfold isCpfValid, valid. cbv zeta. rewrite digits_clean.
  pose proof (replace_nondigits_all_digits s) as Hd.
  set (c := replace_nondigits s) in *.
  set (ds := map digit_value (list_ascii_of_string c)).
  assert (length ds = String.length c) as Hlen
    by (unfold ds; rewrite length_map; apply length_chars).
  rewrite Hlen.
  destruct (String.length c =? 11)%nat eqn:E; simpl negb; cbv iota.
  2:{ apply Nat.eqb_neq in E. split; [discriminate | tauto]. }
  apply Nat.eqb_eq in E.
  pose proof (same_digit_repeated_identical c Hd ltac:(lia)) as Hsame.
  fold ds in Hsame.
  destruct (same_digit_repeated c).
  { split; [discriminate|]. intros (_ & Hn & _). contradict Hn. now apply Hsame. }
  assert (~ all_identical ds) as Hdiff
    by (intros H; apply Hsame in H; discriminate).
  rewrite !weighted_sum_digits by (assumption || lia). fold ds.
  rewrite !parseInt_charAt by (assumption || lia). fold ds.
  rewrite !check_digit_of_rem by (apply weighted_nonneg; [assumption | lia]).
  unfold Js.strict_ne. unfold check_digit. cbv zeta.
  change (Z.of_nat 9 + 1) with 10. change (Z.of_nat 10 + 1) with 11.
  set (d1 := if weighted ds 9 10 mod 11 <? 2 then 0 else 11 - weighted ds 9 10 mod 11).
  set (d2 := if weighted ds 10 11 mod 11 <? 2 then 0 else 11 - weighted ds 10 11 mod 11).
  destruct (Js.strict_eq (Some (nth 9 ds 0)) (Some d1)) eqn:E1; simpl negb; cbv iota.
  - apply strict_eq_Some in E1. rewrite strict_eq_Some. tauto.
  - split; [discriminate|]. intros (_ & _ & H9 & _).
    apply strict_eq_Some in H9. congruence.
Qed.

Lemma flipped_last_digit_invalid (c : ascii) :
  is_digit c = true -> c <> "5"%char ->
  isCpfValid (with_last_digit "529.982.247-25" c) = false.
Proof.
  destruct c as [[] [] [] [] [] [] [] []]; vm_compute;
    intros H1 H2; solve [reflexivity | discriminate | contradict H2; reflexivity].
Qed.

(** C4. [isCpfValid] is a total function to the booleans, and it answers
    [true] exactly when the digits left after removing every other character
    are eleven, are not all identical, and their tenth and eleventh digits
    are the check digits computed with weights 10..2 and 11..2 (0 when the
    remainder modulo 11 is below 2).  ["111.111.111-11"] is rejected, the
    valid CPF ["529.982.247-25"] is accepted, and changing its last digit
    to any other digit makes it rejected. *)
Theorem isCpfValid_check_digits :
  (forall s : string, isCpfValid s = true <-> valid s)
  /\ (forall s : string, isCpfValid s = false <-> ~ valid s)
  /\ isCpfValid "111.111.111-11" = false
  /\ isCpfValid "529.982.247-25" = true
  /\ (forall c : ascii, is_digit c = true -> c <> "5"%char ->
      isCpfValid (with_last_digit "529.982.247-25" c) = false).
Proof.
  split; [exact isCpfValid_iff_valid|].
  split.
  { intros s. rewrite <- isCpfValid_iff_valid.
    destruct (isCpfValid s); split; congruence. }
  split; [reflexivity|]. split; [reflexivity|].
  exact flipped_last_digit_invalid.
Qed.

Lemma isCpfValid_check_digits_witness :
  (isCpfValid "529.982.247-25" = true <-> valid "529.982.247-25")
  /\ isCpfValid (with_last_digit "529.982.247-25" "6") = false.
Proof.
  destruct isCpfValid_check_digits as (Hiff & _ & _ & _ & Hflip).
  split; [apply Hiff|]. apply Hflip; [reflexivity | discriminate].
Defined.

(** *** Formatting *)

Lemma digit_not_mask (a : ascii) :
  is_digit a = true -> Ascii.eqb a "." || Ascii.eqb a "-" = false.
Proof.
  destruct a as [[] [] [] [] [] [] [] []]; vm_compute;
    intros H; solve [reflexivity | discriminate].
Qed.

(** Split an all-digit string into its first character and the rest. *)
Ltac peel d Hd :=
  destruct d as [|? d];
  [| simpl in Hd; apply andb_true_iff in Hd as [? Hd]].

Ltac use_digits :=
  repeat match goal with
    | H : is_digit ?a = true |- context [is_digit ?a] => rewrite H
    | H : is_digit ?a = true |- context [Ascii.eqb ?a "." || Ascii.eqb ?a "-"] =>
        rewrite (digit_not_mask a H)
    end.

Ltac by_length d Hd Hlen :=
  do 12 (try (peel d Hd));
  simpl in Hlen; try lia;
  unfold slice, slice_from; simpl;
  change (is_digit ".") with false; change (is_digit "-") with false;
  cbv iota; use_digits; simpl; use_digits.

(** The digits of a formatted string are the digits that went in. *)
Lemma replace_nondigits_formatCpf (d : string) :
  (String.length (replace_nondigits d) <= 11)%nat ->
  replace_nondigits (formatCpf d) = replace_nondigits d.
Proof.
  unfold formatCpf. cbv zeta.
  pose proof (replace_nondigits_all_digits d) as Hd.
  generalize dependent (replace_nondigits d). intros c Hd Hlen.
  by_length c Hd Hlen; reflexivity.
Qed.

Lemma strip_mask_formatCpf (d : string) :
  all_digits d = true -> (String.length d <= 11)%nat ->
  strip_mask (formatCpf d) = d.
Proof.
  intros Hd Hlen. unfold formatCpf. cbv zeta.
  rewrite (replace_nondigits_fixed d Hd).
  by_length d Hd Hlen; reflexivity.
Qed.

Lemma last_char_formatCpf (d : string) :
  all_digits d = true -> (String.length d <= 11)%nat ->
  match last_char (formatCpf d) with
  | Some c => is_digit c = true
  | None => d = EmptyString
  end.
Proof.
  intros Hd Hlen. unfold formatCpf. cbv zeta.
  rewrite (replace_nondigits_fixed d Hd).
  by_length d Hd Hlen; solve [reflexivity | assumption].
Qed.

(** C8. For a string of exactly eleven decimal digits, removing ['.'] and
    ['-'] from its formatted form gives the string back; for a string of
    fewer than eleven digits the formatted form ends in a digit, never in a
    mask character (and it is empty only when the input is), and removing
    the mask characters gives the input back as well. *)
Theorem formatCpf_round_trip :
  (forall d : string,
     all_digits d = true -> String.length d = 11%nat ->
     strip_mask (formatCpf d) = d)
  /\ (forall d : string,
        all_digits d = true -> (String.length d < 11)%nat ->
        match last_char (formatCpf d) with
        | Some c => is_digit c = true
        | None => d = EmptyString
        end
        /\ strip_mask (formatCpf d) = d).
Proof.
  split.
  - intros d Hd Hlen. apply strip_mask_formatCpf; [assumption | lia].
  - intros d Hd Hlen. split.
    + apply last_char_formatCpf; [assumption | lia].
    + apply strip_mask_formatCpf; [assumption | lia].
Qed.

Lemma formatCpf_round_trip_witness :
  strip_mask (formatCpf "52998224725") = "52998224725"
  /\ last_char (formatCpf "5299822") = Some "2"%char
  /\ strip_mask (formatCpf "5299822") = "5299822".
Proof.
  destruct formatCpf_round_trip as [H11 Hshort].
  split; [apply H11; reflexivity|].
  destruct (Hshort "5299822" eq_refl ltac:(simpl; lia)) as [_ Hs].
  split; [reflexivity | exact Hs].
Defined.

(** C10. The verdict of [isCpfValid] depends on the decimal digits of its
    input only: it is the verdict on the subsequence of digit characters.
    In particular a string of at most eleven digits and its formatted form
    get the same verdict. *)
Theorem isCpfValid_digits_only :
  (forall s : string, isCpfValid s = isCpfValid (digit_subsequence s))
  /\ (forall d : string,
        all_digits d = true -> (String.length d <= 11)%nat ->
        isCpfValid (formatCpf d) = isCpfValid d).
Proof.
  split.
  - intros s. rewrite <- replace_nondigits_subsequence.
    unfold isCpfValid. rewrite replace_nondigits_idem. reflexivity.
  - intros d Hd Hlen. unfold isCpfValid.
    rewrite replace_nondigits_formatCpf; [reflexivity|].
    rewrite (replace_nondigits_fixed d Hd). exact Hlen.
Qed.

Lemma isCpfValid_digits_only_witness :
  isCpfValid "529.982.247-25" = isCpfValid (digit_subsequence "529.982.247-25")
  /\ isCpfValid (formatCpf "52998224725") = isCpfValid "52998224725".
Proof.
  destruct isCpfValid_digits_only as [Hs Hf].
  split; [apply Hs|]. apply Hf; [reflexivity | simpl; lia].
Defined.

End CpfProofs.

(** ** The auth reducer *)

Module ReducerProofs.
Import Types UseAuth AuthSpec.

Lemma reached_snoc (actions : list AuthAction) (a : AuthAction) :
  reached (actions ++ [a]) = authReducer (reached actions) a.
Proof. unfold reached. rewrite fold_left_app. reflexivity. Qed.

Lemma last_outcome_snoc (actions : list AuthAction) (a : AuthAction) :
  last_outcome_was_success (actions ++ [a])
  = if is_request a then last_outcome_was_success actions else is_success a.
Proof.
  unfold last_outcome_was_success, last_was_success.
  rewrite filter_app, filter_cons, filter_nil.
  destruct a; simpl; rewrite ?app_nil_r; try reflexivity;
    rewrite last_snoc; reflexivity.
Qed.

(** What holds of every reachable state: the flag records the outcome of
    the last action that settles something, and a raised flag comes with a
    user and a token. *)
Lemma reached_invariant (actions : list AuthAction) :
  isAuthenticated (reached actions) = last_outcome_was_success actions
  /\ (isAuthenticated (reached actions) = true ->
      user (reached actions) <> None /\ token (reached actions) <> None).
Proof.
  induction actions as [|a actions [IH1 IH2]] using rev_ind.
  - split; [reflexivity | discriminate].
  - rewrite reached_snoc, last_outcome_snoc.
    destruct a; simpl; split; auto; try discriminate.
Qed.

(** C3, as amended.  In every state reachable from the initial one,
    [isAuthenticated] is true exactly when user and token are both set and
    the most recent action other than [LOGIN_REQUEST] was [LOGIN_SUCCESS]:
    a request in flight leaves the flag as it was. *)
Theorem authenticated_iff_last_outcome_success (actions : list AuthAction) :
  isAuthenticated (reached actions) = true
  <-> (user (reached actions) <> None
       /\ token (reached actions) <> None
       /\ last_outcome_was_success actions = true).
Proof.
  destruct (reached_invariant actions) as [H1 H2]. split.
  - intros H. destruct (H2 H) as [Hu Ht]. rewrite <- H1. auto.
  - intros (_ & _ & H). rewrite H1. exact H.
Qed.

(** C3, counterexample.  After a successful login, a new login request
    leaves [isAuthenticated] true although the most recent action is no
    [LOGIN_SUCCESS]. *)
Lemma authenticated_after_request :
  ~ authenticated_iff_last_success
      [LOGIN_SUCCESS AuthService.mock_response; LOGIN_REQUEST].
Proof.
  unfold authenticated_iff_last_success. intros [H _].
  destruct (H eq_refl) as (_ & _ & Hlast). discriminate Hlast.
Qed.

(** C9. [LOGIN_FAILURE] sets [isLoading], [isAuthenticated] and [error] and
    leaves [user] and [token] as they were; after a successful login, a
    failed attempt keeps the user and the token of that login. *)
Theorem login_failure_frame :
  (forall (s : AuthState) (m : string),
     let s' := authReducer s (LOGIN_FAILURE m) in
     user s' = user s /\ token s' = token s
     /\ isLoading s' = false /\ isAuthenticated s' = false /\ error s' = Some m)
  /\ (forall (actions : list AuthAction) (p : LoginResponse) (m : string),
        let s' := reached (actions ++ [LOGIN_SUCCESS p; LOGIN_FAILURE m]) in
        user s' = Some (resp_user p) /\ token s' = Some (resp_token p)
        /\ isAuthenticated s' = false).
Proof.
  split.
  - intros s m. simpl. auto.
  - intros actions p m.
    change (actions ++ [LOGIN_SUCCESS p; LOGIN_FAILURE m])
      with (actions ++ [LOGIN_SUCCESS p] ++ [LOGIN_FAILURE m]).
    rewrite app_assoc, !reached_snoc. simpl. auto.
Qed.

End ReducerProofs.

(** ** The session store *)

Module StoreProofs.
Import Types AuthService StoreSpec.

Lemma getItem_run (key : string) (st : AsyncStorage.t) :
  safeStorage.getItem key st
  = (Async.Resolved (if faulty st then None else AsyncStorage.items st !! key),
     tick st).
Proof.
  unfold safeStorage.getItem, Async.try_catch, AsyncStorage.getItem,
    AsyncStorage.call, faulty, tick.
  destruct st as [m [|[] fs]]; reflexivity.
Qed.

Lemma multiRemove_run (st : AsyncStorage.t) :
  clearAuthData st
  = (Async.Resolved (negb (faulty st)),
     AsyncStorage.mk
       (if faulty st then AsyncStorage.items st
        else delete USER_DATA_KEY (delete AUTH_TOKEN_KEY (AsyncStorage.items st)))
       (tail (AsyncStorage.faults st))).
Proof.
  unfold clearAuthData, safeStorage.multiRemove, Async.try_catch, Async.bind,
    AsyncStorage.multiRemove, AsyncStorage.call, faulty.
  destruct st as [m [|[] fs]]; reflexivity.
Qed.

Lemma multiSet_run {codec : JSON.Codec} (data : LoginResponse) (st : AsyncStorage.t) :
  saveAuthData data st
  = (Async.Resolved (negb (faulty st)),
     AsyncStorage.mk
       (if faulty st then AsyncStorage.items st
        else <[USER_DATA_KEY := JSON.stringify (resp_user data)]>
               (<[AUTH_TOKEN_KEY := resp_token data]> (AsyncStorage.items st)))
       (tail (AsyncStorage.faults st))).
Proof.
  unfold saveAuthData, safeStorage.multiSet, Async.try_catch, Async.bind,
    AsyncStorage.multiSet, AsyncStorage.call, faulty.
  destruct st as [m [|[] fs]]; reflexivity.
Qed.

Lemma keys_differ : AUTH_TOKEN_KEY <> USER_DATA_KEY.
Proof. discriminate. Qed.

Lemma getSavedUser_run {codec : JSON.Codec} (st : AsyncStorage.t) :
  getSavedUser st
  = (Async.Resolved
       (user_of_text (if faulty st then None else AsyncStorage.items st !! USER_DATA_KEY)),
     tick st).
Proof.
  unfold getSavedUser, Async.bind. rewrite getItem_run.
  destruct (if faulty st then None else AsyncStorage.items st !! USER_DATA_KEY)
    as [[|c r]|]; simpl; try reflexivity.
  destruct (JSON.parse (String c r)); reflexivity.
Qed.

Lemma run_op_saved_or_cleared {codec : JSON.Codec} (op : StoreOp) (st : AsyncStorage.t) :
  saved_or_cleared (AsyncStorage.items st) ->
  saved_or_cleared (AsyncStorage.items (run_op op st).2).
Proof.
  intros Hinv. destruct op as [data|]; simpl run_op.
  - rewrite multiSet_run. simpl. destruct (faulty st); [exact Hinv|].
    right. exists (resp_token data), (resp_user data). split.
    + rewrite lookup_insert_ne by (symmetry; exact keys_differ).
      apply lookup_insert_eq.
    + apply lookup_insert_eq.
  - rewrite multiRemove_run. simpl. destruct (faulty st); [exact Hinv|].
    left. split.
    + rewrite lookup_delete_ne by (symmetry; exact keys_differ).
      apply lookup_delete_eq.
    + apply lookup_delete_eq.
Qed.

Lemma run_ops_saved_or_cleared {codec : JSON.Codec} (ops : list StoreOp) :
  forall st : AsyncStorage.t,
    saved_or_cleared (AsyncStorage.items st) ->
    saved_or_cleared (AsyncStorage.items (run_ops ops st)).
Proof.
  induction ops as [|op ops IH]; intros st Hinv; simpl; [exact Hinv|].
  apply IH, run_op_saved_or_cleared, Hinv.
Qed.

Lemma load_saved_or_cleared {codec : JSON.Codec} (m : gmap string string) :
  JSON.Lawful codec -> saved_or_cleared m ->
  complete_or_nothing (load (AsyncStorage.mk m [])).1.
Proof.
  intros Hlaw Hinv. unfold load, Async.all2, getSavedToken.
  rewrite getSavedUser_run, getItem_run. simpl.
  destruct Hinv as [[Ht Hu]|(t & u & Ht & Hu)]; rewrite Ht, Hu; simpl; [exact I|].
  destruct (JSON.parse_stringify u) as [v Hv].
  pose proof (JSON.stringify_nonempty u) as Hne.
  destruct (JSON.stringify u) as [|c r]; [contradiction|].
  rewrite Hv. exact I.
Qed.

(** C7. From a store without the two session keys, whatever sequence of
    [saveAuthData] and [clearAuthData] runs and whichever of the calls fail,
    the store ends with both keys or with neither; loading the session from
    it, once the reads go through, gives a complete pair of user and token
    or nothing. *)
Theorem session_keys_paired {codec : JSON.Codec} (m0 : gmap string string)
    (faults : list bool) (ops : list StoreOp) :
  JSON.Lawful codec ->
  both_absent m0 ->
  let m := AsyncStorage.items (run_ops ops (AsyncStorage.mk m0 faults)) in
  (both_present m \/ both_absent m)
  /\ complete_or_nothing (load (AsyncStorage.mk m [])).1.
Proof.
  intros Hlaw H0 m.
  assert (saved_or_cleared m) as Hinv
    by (apply run_ops_saved_or_cleared; left; exact H0).
  split; [|apply load_saved_or_cleared; assumption].
  destruct Hinv as [Habs|(t & u & Ht & Hu)]; [right; exact Habs|].
  left. split; [rewrite Ht | rewrite Hu]; eexists; reflexivity.
Qed.

Lemma sample_codec_lawful (u0 : User) : JSON.Lawful (sample_codec u0).
Proof. split; intros u; simpl; [discriminate | eexists; reflexivity]. Qed.

Lemma session_keys_paired_witness :
  let codec := sample_codec (resp_user mock_response) in
  let m :=
    AsyncStorage.items
      (run_ops [Save mock_response; Clear; Save mock_response; Clear]
         (AsyncStorage.mk ∅ [false; true; false; true])) in
  (both_present m \/ both_absent m)
  /\ complete_or_nothing (load (AsyncStorage.mk m [])).1.
Proof.
  apply (@session_keys_paired (sample_codec (resp_user mock_response)) ∅
           [false; true; false; true]
           [Save mock_response; Clear; Save mock_response; Clear]).
  - apply sample_codec_lawful.
  - split; apply lookup_empty.
Defined.

End StoreProofs.

(** ** The hook *)

Module HookProofs.
Import Types AuthService UseAuth AuthSpec StoreSpec StoreProofs.

Lemma service_run {A} (m : Svc A) (w : World) :
  service m w
  = ((m (storage w)).1,
     mkWorld (state w) (isInitialized w) (m (storage w)).2).
Proof. unfold service, Async.lift. destruct (m (storage w)); reflexivity. Qed.

(** C6. [logout] resolves and leaves the auth state logged out, whatever
    the service's [logout] does: report success, report failure or throw. *)
Theorem logout_always_logged_out (AuthService : Api) (w : World) :
  logout AuthService w
  = (Async.Resolved tt,
     mkWorld logged_out (isInitialized w) (api_logout AuthService (storage w)).2).
Proof.
  unfold logout, Async.try_catch, Async.bind. rewrite service_run.
  destruct (api_logout AuthService (storage w)) as [[success|e] st']; reflexivity.
Qed.

(** The mock service rejects every pair of credentials but one, with the
    same message, and leaves the store alone. *)
Lemma service_login_rejects {codec : JSON.Codec} (credentials : LoginCredentials)
    (st : AsyncStorage.t) :
  (cred_cpf credentials =? "123.456.789-10")%string
  && (cred_password credentials =? "password123")%string = false ->
  AuthService.login credentials st
  = (Async.Rejected (Async.JsError invalid_credentials), st).
Proof. intros H. unfold AuthService.login. rewrite H. reflexivity. Qed.

(** C5. When the service's [login] rejects the credentials with an error
    of message [m], the hook's [login] rejects with the same error and
    leaves [isLoading] and [isAuthenticated] false and [error] set to [m];
    the next [LOGIN_REQUEST] sets [error] back to null. *)
Theorem login_rejection (AuthService : Api) (credentials : LoginCredentials)
    (w : World) (m : string) (st' : AsyncStorage.t) :
  api_login AuthService credentials (storage w)
  = (Async.Rejected (Async.JsError m), st') ->
  exists w' : World,
    login AuthService credentials w = (Async.Rejected (Async.JsError m), w')
    /\ isLoading (state w') = false
    /\ isAuthenticated (state w') = false
    /\ error (state w') = Some m
    /\ user (state w') = user (state w)
    /\ token (state w') = token (state w)
    /\ storage w' = st'
    /\ error (state (dispatch LOGIN_REQUEST w').2) = None.
Proof.
  intros Hrej. unfold login, Async.try_catch, Async.bind.
  simpl. rewrite service_run. simpl. rewrite Hrej. simpl.
  eexists. split; [reflexivity|]. simpl. repeat split.
Qed.

Lemma login_rejection_witness :
  let codec := sample_codec (resp_user mock_response) in
  exists w' : World,
    login api (mkCredentials "bad" "bad") (mount (AsyncStorage.mk ∅ []))
    = (Async.Rejected (Async.JsError invalid_credentials), w')
    /\ isLoading (state w') = false
    /\ isAuthenticated (state w') = false
    /\ error (state w') = Some invalid_credentials
    /\ user (state w') = None
    /\ token (state w') = None
    /\ storage w' = AsyncStorage.mk ∅ []
    /\ error (state (dispatch LOGIN_REQUEST w').2) = None.
Proof.
  exact (login_rejection (@api (sample_codec (resp_user mock_response)))
           (mkCredentials "bad" "bad") (mount (AsyncStorage.mk ∅ []))
           invalid_credentials (AsyncStorage.mk ∅ []) eq_refl).
Defined.

Lemma isUserLoggedIn_run {codec : JSON.Codec} (st : AsyncStorage.t) :
  isUserLoggedIn st = (Async.Resolved (truthy (read AUTH_TOKEN_KEY st)), tick st).
Proof.
  unfold isUserLoggedIn, getSavedToken, Async.bind. rewrite getItem_run.
  reflexivity.
Qed.

(** What [checkAuthStatus] does on the service of this repository: it never
    rejects, it sets [isInitialized], and it ends authenticated only when
    the token is read twice and the user record once, all three with
    success. *)
Lemma checkAuthStatus_run {codec : JSON.Codec} (w : World) :
  let st := storage w in
  checkAuthStatus api w
  = (Async.Resolved tt,
     if truthy (read AUTH_TOKEN_KEY st) then
       match user_of_text (read USER_DATA_KEY (tick st)),
             truthy (read AUTH_TOKEN_KEY (tick (tick st))),
             read AUTH_TOKEN_KEY (tick (tick st)) with
       | Some u, true, Some tok =>
           mkWorld (authReducer (state w) (LOGIN_SUCCESS (mkResponse u tok))) true
             (tick (tick (tick st)))
       | _, _, _ =>
           mkWorld logged_out true (clearAuthData (tick (tick (tick st)))).2
       end
     else mkWorld logged_out true (tick st)).
Proof.
  intros st.
  unfold checkAuthStatus, Async.finally, Async.try_catch, Async.bind, Async.all2.
  rewrite !service_run.
  cbn [api api_isUserLoggedIn api_getSavedUser api_getSavedToken api_clearAuthData].
  rewrite isUserLoggedIn_run. cbn [fst snd]. fold st.
  destruct (truthy (read AUTH_TOKEN_KEY st)); [|reflexivity].
  rewrite !service_run. cbn [storage fst snd].
  rewrite getSavedUser_run. cbn [fst snd].
  unfold getSavedToken. rewrite getItem_run. cbn [fst snd].
  fold (read USER_DATA_KEY (tick st)).
  fold (read AUTH_TOKEN_KEY (tick (tick st))).
  destruct (user_of_text (read USER_DATA_KEY (tick st))) as [u|];
    [destruct (truthy (read AUTH_TOKEN_KEY (tick (tick st))));
       [destruct (read AUTH_TOKEN_KEY (tick (tick st))) as [tok|]|]|];
    rewrite ?service_run; cbn [storage state isInitialized fst snd];
    try destruct (clearAuthData (tick (tick (tick st)))) as [[b|e] st3] eqn:E;
    try reflexivity.
  all: rewrite multiRemove_run in E; discriminate E.
Qed.

Lemma unparsable_user_of_text {codec : JSON.Codec} (m : gmap string string) :
  parsable_user m = false -> user_of_text (m !! USER_DATA_KEY) = None.
Proof.
  unfold parsable_user, user_of_text.
  destruct (m !! USER_DATA_KEY) as [[|c r]|]; try reflexivity.
  destruct (JSON.parse (String c r)); [reflexivity | reflexivity | discriminate].
Qed.

Lemma read_no_faults (key : string) (st : AsyncStorage.t) :
  AsyncStorage.faults st = [] -> read key st = AsyncStorage.items st !! key.
Proof. unfold read, faulty. intros ->. reflexivity. Qed.

Lemma tick_no_faults (st : AsyncStorage.t) :
  AsyncStorage.faults st = [] -> AsyncStorage.faults (tick st) = [].
Proof. unfold tick. simpl. intros ->. reflexivity. Qed.

(** C1, as amended.  From a store that holds one component of a session
    (a token without a parsable user record, or a user record with no token
    or an empty one), [checkAuthStatus] resolves with the auth state logged
    out and [isInitialized] set, whichever storage calls fail.  When the
    store holds a non-empty token and no parsable user record and the
    storage calls go through, both keys are removed.  When it holds no
    token (or an empty one) nothing is removed: the stored items stay as
    they were. *)
Theorem checkAuthStatus_partial_session {codec : JSON.Codec} (st : AsyncStorage.t) :
  partial_session (AsyncStorage.items st) ->
  let r := checkAuthStatus api (mount st) in
  r.1 = Async.Resolved tt
  /\ state r.2 = logged_out
  /\ isInitialized r.2 = true
  /\ (truthy (AsyncStorage.items st !! AUTH_TOKEN_KEY) = true ->
      AsyncStorage.faults st = [] ->
      both_absent (AsyncStorage.items (storage r.2)))
  /\ (truthy (AsyncStorage.items st !! AUTH_TOKEN_KEY) = false ->
      AsyncStorage.items (storage r.2) = AsyncStorage.items st).
Proof.
  intros Hpartial r. subst r. rewrite checkAuthStatus_run.
  cbn [fst snd mount storage state].
  assert (truthy (read AUTH_TOKEN_KEY st) = true ->
          user_of_text (read USER_DATA_KEY (tick st)) = None) as Huser.
  { intros Htok. destruct Hpartial as [[_ Hun]|[_ Hnone]].
    - unfold read. destruct (faulty (tick st)); [reflexivity|].
      apply unparsable_user_of_text, Hun.
    - unfold read in Htok. destruct (faulty st); [discriminate Htok|].
      congruence. }
  split; [reflexivity|].
  destruct (truthy (read AUTH_TOKEN_KEY st)) eqn:Htok.
  - rewrite (Huser eq_refl). cbn [state isInitialized storage].
    split; [reflexivity|]. split; [reflexivity|]. split.
    + intros _ Hf. rewrite multiRemove_run. cbn [snd AsyncStorage.items].
      assert (faulty (tick (tick (tick st))) = false) as ->.
      { unfold faulty. now rewrite (tick_no_faults _ (tick_no_faults _ (tick_no_faults _ Hf))). }
      unfold tick. cbn [AsyncStorage.items]. split.
      * rewrite lookup_delete_ne by (symmetry; exact keys_differ).
        apply lookup_delete_eq.
      * apply lookup_delete_eq.
    + intros Hfalse. unfold read in Htok. destruct (faulty st); [discriminate|].
      congruence.
  - cbn [state isInitialized storage].
    split; [reflexivity|]. split; [reflexivity|]. split.
    + intros Htrue Hf. rewrite (read_no_faults _ _ Hf) in Htok. congruence.
    + intros _. reflexivity.
Qed.

Lemma checkAuthStatus_partial_session_witness :
  let codec := sample_codec (resp_user mock_response) in
  let st := AsyncStorage.mk {[AUTH_TOKEN_KEY := "stale-token"]} [] in
  let r := checkAuthStatus api (mount st) in
  let st2 :=
    AsyncStorage.mk
      (<[AUTH_TOKEN_KEY := ""]>
         {[USER_DATA_KEY := JSON.stringify (resp_user mock_response)]}) [] in
  let r2 := checkAuthStatus api (mount st2) in
  (r.1 = Async.Resolved tt
   /\ state r.2 = logged_out
   /\ isInitialized r.2 = true
   /\ both_absent (AsyncStorage.items (storage r.2)))
  /\ (r2.1 = Async.Resolved tt
      /\ state r2.2 = logged_out
      /\ isInitialized r2.2 = true
      /\ AsyncStorage.items (storage r2.2) = AsyncStorage.items st2).
Proof.
  intros codec st r st2 r2. split.
  - assert (partial_session (AsyncStorage.items st)) as Hpartial.
    { left. split.
      - exists "stale-token". apply lookup_singleton_eq.
      - unfold parsable_user. cbn [AsyncStorage.items st].
        rewrite lookup_singleton_ne by exact keys_differ. reflexivity. }
    destruct (@checkAuthStatus_partial_session codec st Hpartial)
      as (Hres & Hstate & Hinit & Hclear & _).
    split; [exact Hres|]. split; [exact Hstate|]. split; [exact Hinit|].
    apply Hclear; [|reflexivity].
    cbn [AsyncStorage.items st]. rewrite lookup_singleton_eq. reflexivity.
  - assert (truthy (AsyncStorage.items st2 !! AUTH_TOKEN_KEY) = false) as Hempty.
    { cbn [AsyncStorage.items st2]. rewrite lookup_insert_eq. reflexivity. }
    assert (partial_session (AsyncStorage.items st2)) as Hpartial.
    { right. split; [|exact Hempty]. cbn [AsyncStorage.items st2].
      rewrite lookup_insert_ne by exact keys_differ.
      eexists. apply lookup_singleton_eq. }
    destruct (@checkAuthStatus_partial_session codec st2 Hpartial)
      as (Hres & Hstate & Hinit & _ & Hkept).
    split; [exact Hres|]. split; [exact Hstate|]. split; [exact Hinit|].
    apply Hkept, Hempty.
Defined.

(** C1, counterexample.  A store that holds a user record and no token is
    left as it is: the user record is still there after [checkAuthStatus]. *)
Lemma user_record_without_token_stays :
  ~ @clears_partial_session (sample_codec (resp_user mock_response))
      (AsyncStorage.mk
         {[USER_DATA_KEY :=
             @JSON.stringify (sample_codec (resp_user mock_response))
               (resp_user mock_response)]} []).
Proof.
  unfold clears_partial_session. intros H.
  destruct H as [_ [_ Hu]].
  - right. cbn [AsyncStorage.items]. split.
    + eexists. apply lookup_singleton_eq.
    + rewrite lookup_singleton_ne by (symmetry; exact keys_differ).
      reflexivity.
  - rewrite checkAuthStatus_run in Hu.
    cbn [mount storage] in Hu. unfold read at 1 in Hu.
    cbn [faulty AsyncStorage.faults AsyncStorage.items] in Hu.
    rewrite lookup_singleton_ne in Hu by (symmetry; exact keys_differ).
    cbn [truthy snd storage tick AsyncStorage.items] in Hu.
    rewrite lookup_singleton_eq in Hu. discriminate Hu.
Qed.

End HookProofs.

(** ** The route guard *)

Module GuardProofs.
Import Types AuthGuard GuardSpec.

Local Arguments includes : simpl never.
Local Arguments nonempty : simpl never.

Lemma includes_elem_of (l : list string) (x : string) :
  includes l x = true <-> x ∈ l.
Proof.
  unfold includes. rewrite existsb_exists, list_elem_of_In. split.
  - intros (y & Hin & Heq). apply String.eqb_eq in Heq. now subst.
  - intros Hin. exists x. split; [assumption | apply String.eqb_refl].
Qed.

Lemma includes_not_elem_of (l : list string) (x : string) :
  includes l x = false <-> x ∉ l.
Proof.
  rewrite <- includes_elem_of. destruct (includes l x); split; congruence.
Qed.

Lemma role_route_nonempty (t : UserType) : nonempty (ROLE_ROUTES t) = true.
Proof. destruct t; reflexivity. Qed.

Lemma role_route_known (s : string) :
  s ∈ ROLE_ROUTES_values -> nonempty s = true /\ s ∉ PUBLIC_ROUTES.
Proof.
  unfold ROLE_ROUTES_values, PUBLIC_ROUTES. rewrite !elem_of_cons, elem_of_nil.
  intros [->|[->|[->|[]]]]; (split; [reflexivity|]);
    intros [H|[H|[H|[]]]]; discriminate H.
Qed.

(** C2, as amended.  Nothing is computed before initialization.  After it,
    with [route] the path without its leading slash and [module] the first
    segment: an authenticated user on a public route is sent to the segment
    of the user's role; a visitor who is not authenticated and not on a
    public route is sent to [/login]; an authenticated user whose first
    segment is the segment of another role is sent to the user's own; and
    in every other case there is no redirect. *)
Theorem useProtectedRoute_decision (isAuthenticated isInitialized : bool)
    (user : option User) (pathname : string) (segments : list string) :
  let route := currentRoute pathname in
  let module := currentModule segments in
  let own (u : User) := ROLE_ROUTES (userType u) in
  let effect :=
    useProtectedRoute_effect isAuthenticated isInitialized user pathname segments in
  (isInitialized = false -> effect = None)
  /\ (isInitialized = true ->
      (forall u, user = Some u ->
         route ∈ PUBLIC_ROUTES -> isAuthenticated = true ->
         effect = Some ("/" +:+ own u))
      /\ (route ∉ PUBLIC_ROUTES -> isAuthenticated = false ->
          effect = Some "/login")
      /\ (forall u, user = Some u ->
            route ∉ PUBLIC_ROUTES -> isAuthenticated = true ->
            module ∈ ROLE_ROUTES_values -> module <> own u ->
            effect = Some ("/" +:+ own u))
      /\ (route ∈ PUBLIC_ROUTES -> isAuthenticated = false -> effect = None)
      /\ (forall u, user = Some u ->
            route ∉ PUBLIC_ROUTES -> isAuthenticated = true ->
            module ∉ ROLE_ROUTES_values \/ module = own u ->
            effect = None)
      /\ (user = None -> isAuthenticated = true -> effect = None)).
Proof.
  intros route module own effect. subst effect.
  unfold useProtectedRoute_effect. cbv zeta. fold route module.
  split; [intros ->; reflexivity|]. intros ->. simpl negb. cbv iota.
  split; [|split; [|split; [|split; [|split]]]].
  - intros u -> Hpub ->. apply includes_elem_of in Hpub. rewrite Hpub. reflexivity.
  - intros Hpub ->. apply includes_not_elem_of in Hpub. rewrite Hpub. reflexivity.
  - intros u -> Hpub -> Hknown Hother. fold (own u).
    apply includes_not_elem_of in Hpub. rewrite Hpub. simpl.
    destruct (role_route_known module Hknown) as [Hne _]. rewrite Hne.
    apply includes_elem_of in Hknown. rewrite Hknown.
    apply String.eqb_neq in Hother. rewrite Hother. reflexivity.
  - intros Hpub ->. apply includes_elem_of in Hpub. rewrite Hpub.
    destruct user; reflexivity.
  - intros u -> Hpub -> Hcase. fold (own u).
    apply includes_not_elem_of in Hpub. rewrite Hpub. simpl.
    destruct Hcase as [Hunknown | ->].
    + apply includes_not_elem_of in Hunknown. rewrite Hunknown.
      destruct (nonempty module && negb (module =? own u)%string); reflexivity.
    + rewrite String.eqb_refl, andb_false_r. reflexivity.
  - intros -> ->. rewrite andb_false_r. reflexivity.
Qed.

Lemma useProtectedRoute_decision_witness :
  let trainer := resp_user AuthService.mock_response in
  useProtectedRoute_effect true true (Some trainer) "/login" ["login"]
  = Some "/trainer"
  /\ useProtectedRoute_effect false true None "/trainer" ["trainer"]
     = Some "/login"
  /\ useProtectedRoute_effect true true (Some trainer) "/admin/users" ["admin"; "users"]
     = Some "/trainer"
  /\ useProtectedRoute_effect true true (Some trainer) "/settings" ["settings"]
     = None
  /\ useProtectedRoute_effect true false (Some trainer) "/admin" ["admin"]
     = None.
Proof.
  intros trainer.
  pose proof (useProtectedRoute_decision true true (Some trainer) "/login" ["login"]) as H1.
  pose proof (useProtectedRoute_decision false true None "/trainer" ["trainer"]) as H2.
  pose proof (useProtectedRoute_decision true true (Some trainer) "/admin/users"
                ["admin"; "users"]) as H3.
  pose proof (useProtectedRoute_decision true true (Some trainer) "/settings"
                ["settings"]) as H4.
  pose proof (useProtectedRoute_decision true false (Some trainer) "/admin" ["admin"]) as H5.
  cbv zeta in *.
  destruct H1 as [_ H1]. destruct (H1 eq_refl) as (P1 & _).
  destruct H2 as [_ H2]. destruct (H2 eq_refl) as (_ & P2 & _).
  destruct H3 as [_ H3]. destruct (H3 eq_refl) as (_ & _ & P3 & _).
  destruct H4 as [_ H4]. destruct (H4 eq_refl) as (_ & _ & _ & _ & P4 & _).
  destruct H5 as [P5 _].
  split; [apply (P1 trainer eq_refl); [apply includes_elem_of|]; reflexivity|].
  split; [apply P2; [apply includes_not_elem_of|]; reflexivity|].
  split; [apply (P3 trainer eq_refl);
          [apply includes_not_elem_of; reflexivity | reflexivity
          | apply includes_elem_of; reflexivity | discriminate]|].
  split; [apply (P4 trainer eq_refl);
          [apply includes_not_elem_of; reflexivity | reflexivity
          | left; apply includes_not_elem_of; reflexivity]|].
  apply P5. reflexivity.
Defined.

(** C2, counterexample.  On the path [/login/help] the first segment is
    public, yet an authenticated trainer is not redirected: the code looks
    for the whole path in the public set. *)
Lemma nested_public_path_not_redirected :
  let trainer := resp_user AuthService.mock_response in
  useProtectedRoute_effect true true (Some trainer) "/login/help" ["login"; "help"]
  = None
  /\ useProtectedRoute_effect true true (Some trainer) "/login/help" ["+not-found"]
     = None
  /\ claimed_redirect true (userType trainer) (currentModule ["login"; "help"])
     = Some "/trainer".
Proof. repeat split. Qed.

(** On a path of one segment the whole path and the first segment are the
    same name, and the guard decides as the specification words it. *)
Lemma single_segment_as_claimed (isAuthenticated : bool) (u : User)
    (pathname segment : string) :
  currentRoute pathname = segment ->
  useProtectedRoute_effect isAuthenticated true (Some u) pathname [segment]
  = claimed_redirect isAuthenticated (userType u) segment.
Proof.
  intros Hroute. unfold useProtectedRoute_effect, claimed_redirect.
  cbv zeta. rewrite Hroute. cbn [negb currentModule].
  destruct (includes PUBLIC_ROUTES segment) eqn:Hpub.
  - rewrite (bool_decide_eq_true_2 _ (proj1 (includes_elem_of _ _) Hpub)).
    destruct isAuthenticated; reflexivity.
  - rewrite (bool_decide_eq_false_2 _ (proj1 (includes_not_elem_of _ _) Hpub)).
    destruct isAuthenticated; [|reflexivity]. cbn [negb andb].
    destruct (includes ROLE_ROUTES_values segment) eqn:Hknown.
    + apply includes_elem_of in Hknown.
      rewrite (bool_decide_eq_true_2 _ Hknown).
      destruct (role_route_known segment Hknown) as [-> _]. cbn [andb].
      destruct (String.eqb_spec segment (ROLE_ROUTES (userType u))) as [Heq|Hne].
      * rewrite (bool_decide_eq_true_2 _ Heq). reflexivity.
      * rewrite (bool_decide_eq_false_2 _ Hne). reflexivity.
    + apply includes_not_elem_of in Hknown.
      rewrite (bool_decide_eq_false_2 _ Hknown). cbn [andb].
      destruct (nonempty segment && negb (segment =? ROLE_ROUTES (userType u))%string);
        reflexivity.
Qed.

(** The three scenarios of the route guard. *)
Example guard_scenarios :
  let as_role t := Some (mkUser "1" "n" "c" "e" None t) in
  useProtectedRoute_effect true true (as_role TRAINER) "/login" ["login"]
  = Some "/trainer"
  /\ useProtectedRoute_effect true true (as_role STUDENT) "/admin" ["admin"]
     = Some "/student"
  /\ useProtectedRoute_effect false true None "/trainer" ["trainer"]
     = Some "/login".
Proof. repeat split. Qed.

End GuardProofs.

(** ** More on the session store *)

Module StoreExtras.
Import Types AuthService StoreSpec StoreProofs.

Lemma setItem_run (key value : string) (st : AsyncStorage.t) :
  safeStorage.setItem key value st
  = (Async.Resolved (negb (faulty st)),
     AsyncStorage.mk
       (if faulty st then AsyncStorage.items st
        else <[key := value]> (AsyncStorage.items st))
       (tail (AsyncStorage.faults st))).
Proof.
  unfold safeStorage.setItem, Async.try_catch, Async.bind,
    AsyncStorage.setItem, AsyncStorage.call, faulty.
  destruct st as [m [|[] fs]]; reflexivity.
Qed.

Lemma safe_multiSet_run (keyValuePairs : list (string * string))
    (st : AsyncStorage.t) :
  safeStorage.multiSet keyValuePairs st
  = (Async.Resolved (negb (faulty st)),
     AsyncStorage.mk
       (if faulty st then AsyncStorage.items st
        else fold_left (fun acc kv => <[kv.1 := kv.2]> acc) keyValuePairs
               (AsyncStorage.items st))
       (tail (AsyncStorage.faults st))).
Proof.
  unfold safeStorage.multiSet, Async.try_catch, Async.bind,
    AsyncStorage.multiSet, AsyncStorage.call, faulty.
  destruct st as [m [|[] fs]]; reflexivity.
Qed.

Lemma safe_multiRemove_run (keys : list string) (st : AsyncStorage.t) :
  safeStorage.multiRemove keys st
  = (Async.Resolved (negb (faulty st)),
     AsyncStorage.mk
       (if faulty st then AsyncStorage.items st
        else fold_left (fun acc k => delete k acc) keys (AsyncStorage.items st))
       (tail (AsyncStorage.faults st))).
Proof.
  unfold safeStorage.multiRemove, Async.try_catch, Async.bind,
    AsyncStorage.multiRemove, AsyncStorage.call, faulty.
  destruct st as [m [|[] fs]]; reflexivity.
Qed.

(** A batch of writes leaves the keys it does not name alone. *)
Lemma lookup_fold_insert_other (kvs : list (string * string)) (k : string) :
  forall m : gmap string string,
    k ∉ kvs.*1 ->
    fold_left (fun acc kv => <[kv.1 := kv.2]> acc) kvs m !! k = m !! k.
Proof.
  induction kvs as [|[k' v'] kvs IH]; intros m Hk; [reflexivity|].
  cbn [fmap list_fmap fst] in Hk. apply not_elem_of_cons in Hk as [Hne Hk].
  cbn [fold_left fst snd]. rewrite (IH _ Hk).
  apply lookup_insert_ne. congruence.
Qed.

(** A batch of writes to distinct keys stores every pair. *)
Lemma lookup_fold_insert_named (kvs : list (string * string)) (k v : string) :
  forall m : gmap string string,
    NoDup kvs.*1 -> (k, v) ∈ kvs ->
    fold_left (fun acc kv => <[kv.1 := kv.2]> acc) kvs m !! k = Some v.
Proof.
  induction kvs as [|[k' v'] kvs IH]; intros m Hnd Hin.
  - now apply elem_of_nil in Hin.
  - cbn [fmap list_fmap fst] in Hnd. apply NoDup_cons in Hnd as [Hfresh Hnd].
    cbn [fold_left fst snd]. apply elem_of_cons in Hin as [E|Hin].
    + injection E as -> ->.
      rewrite (lookup_fold_insert_other kvs k' _ Hfresh).
      apply lookup_insert_eq.
    + apply IH; assumption.
Qed.

(** A batch of removals removes the keys it names and no other. *)
Lemma lookup_fold_delete (keys : list string) (k : string) :
  forall m : gmap string string,
    fold_left (fun acc k' => delete k' acc) keys m !! k
    = if decide (k ∈ keys) then None else m !! k.
Proof.
  induction keys as [|k' keys IH]; intros m; cbn [fold_left].
  - rewrite decide_False by apply not_elem_of_nil. reflexivity.
  - rewrite IH. destruct (decide (k ∈ keys)) as [Hin|Hout].
    + rewrite decide_True by now apply list_elem_of_further. reflexivity.
    + destruct (decide (k = k')) as [->|Hne].
      * rewrite decide_True by apply list_elem_of_here. apply lookup_delete_eq.
      * rewrite decide_False
          by (intros [E|E]%elem_of_cons; [congruence | contradiction]).
        apply lookup_delete_ne. congruence.
Qed.

(** X1. No call through [safeStorage] rejects, whichever of its four
    functions is called.  A call that the store fails answers [null] (for a
    read) or [false] (for a write) and leaves the items as they were; a
    call that goes through answers the stored value or [true], and a write
    changes the keys it names and no other: [setItem] and [multiSet] store
    the values they are given, [multiRemove] (and so [clearAuthData])
    removes the keys it is given. *)
Theorem safeStorage_never_rejects (st : AsyncStorage.t) (key value : string) :
  safeStorage.getItem key st
  = (Async.Resolved (if faulty st then None else AsyncStorage.items st !! key),
     tick st)
  /\ (exists st1,
        safeStorage.setItem key value st = (Async.Resolved (negb (faulty st)), st1)
        /\ (faulty st = true -> AsyncStorage.items st1 = AsyncStorage.items st)
        /\ (faulty st = false ->
            AsyncStorage.items st1 !! key = Some value
            /\ forall k, k <> key ->
                 AsyncStorage.items st1 !! k = AsyncStorage.items st !! k))
  /\ (exists st2,
        clearAuthData st = (Async.Resolved (negb (faulty st)), st2)
        /\ (faulty st = true -> AsyncStorage.items st2 = AsyncStorage.items st)
        /\ (faulty st = false ->
            both_absent (AsyncStorage.items st2)
            /\ forall k, k <> AUTH_TOKEN_KEY -> k <> USER_DATA_KEY ->
                 AsyncStorage.items st2 !! k = AsyncStorage.items st !! k))
  /\ (forall keyValuePairs : list (string * string),
      exists st3,
        safeStorage.multiSet keyValuePairs st
        = (Async.Resolved (negb (faulty st)), st3)
        /\ (faulty st = true -> AsyncStorage.items st3 = AsyncStorage.items st)
        /\ (faulty st = false ->
            (forall k, k ∉ keyValuePairs.*1 ->
               AsyncStorage.items st3 !! k = AsyncStorage.items st !! k)
            /\ (NoDup keyValuePairs.*1 ->
                forall k v, (k, v) ∈ keyValuePairs ->
                  AsyncStorage.items st3 !! k = Some v)))
  /\ (forall keys : list string,
      exists st4,
        safeStorage.multiRemove keys st
        = (Async.Resolved (negb (faulty st)), st4)
        /\ (faulty st = true -> AsyncStorage.items st4 = AsyncStorage.items st)
        /\ (faulty st = false ->
            (forall k, k ∈ keys -> AsyncStorage.items st4 !! k = None)
            /\ (forall k, k ∉ keys ->
                  AsyncStorage.items st4 !! k = AsyncStorage.items st !! k))).
Proof.
  split; [apply getItem_run|]. split; [|split; [|split]].
  - eexists. split; [apply setItem_run|]. cbn [AsyncStorage.items].
    destruct (faulty st); split; try discriminate; intros _; [reflexivity|].
    split; [apply lookup_insert_eq|].
    intros k Hk. apply lookup_insert_ne. congruence.
  - eexists. split; [apply multiRemove_run|]. cbn [AsyncStorage.items].
    destruct (faulty st); split; try discriminate; intros _; [reflexivity|].
    split; [split|].
    + rewrite lookup_delete_ne by (symmetry; exact keys_differ).
      apply lookup_delete_eq.
    + apply lookup_delete_eq.
    + intros k Ht Hu. rewrite !lookup_delete_ne by congruence. reflexivity.
  - intros kvs. eexists. split; [apply safe_multiSet_run|].
    cbn [AsyncStorage.items].
    destruct (faulty st); split; try discriminate; intros _; [reflexivity|].
    split.
    + intros k Hk. now apply lookup_fold_insert_other.
    + intros Hnd k v Hin. now apply lookup_fold_insert_named.
  - intros keys. eexists. split; [apply safe_multiRemove_run|].
    cbn [AsyncStorage.items].
    destruct (faulty st); split; try discriminate; intros _; [reflexivity|].
    split; intros k Hk; rewrite lookup_fold_delete;
      [rewrite decide_True by assumption | rewrite decide_False by assumption];
      reflexivity.
Qed.

Lemma safeStorage_never_rejects_witness :
  let st := AsyncStorage.mk {[ "theme" := "dark" ]} [false] in
  exists st3,
    safeStorage.multiSet [("a", "1"); ("b", "2")] st = (Async.Resolved true, st3)
    /\ AsyncStorage.items st3 !! "b" = Some "2"
    /\ AsyncStorage.items st3 !! "theme" = Some "dark".
Proof.
  intros st.
  destruct (safeStorage_never_rejects st "a" "1") as (_ & _ & _ & Hset & _).
  destruct (Hset [("a", "1"); ("b", "2")]) as (st3 & Hrun & _ & Hok).
  destruct (Hok eq_refl) as [Hother Hnamed].
  exists st3. split; [exact Hrun|]. split.
  - apply Hnamed.
    + cbn. repeat constructor; rewrite ?elem_of_cons, ?elem_of_nil;
        intros H; decompose [or] H; discriminate || contradiction.
    + apply list_elem_of_further, list_elem_of_here.
  - rewrite Hother.
    + apply lookup_singleton_eq.
    + cbn. rewrite !elem_of_cons, elem_of_nil.
      intros H; decompose [or] H; discriminate || contradiction.
Defined.

(** X2. A session that [saveAuthData] has written is read back: once the
    write went through, [getSavedToken] gives the token and [getSavedUser]
    the user that [JSON.parse] reads from the stored text, while every other
    key of the store is as it was. *)
Theorem saved_session_is_read_back {codec : JSON.Codec} (data : LoginResponse)
    (st : AsyncStorage.t) :
  faulty st = false ->
  JSON.stringify (resp_user data) <> EmptyString ->
  JSON.parse (JSON.stringify (resp_user data)) = JSON.Value (resp_user data) ->
  let st1 := (saveAuthData data st).2 in
  let after := AsyncStorage.mk (AsyncStorage.items st1) [] in
  (saveAuthData data st).1 = Async.Resolved true
  /\ (getSavedToken after).1 = Async.Resolved (Some (resp_token data))
  /\ (getSavedUser after).1 = Async.Resolved (Some (resp_user data))
  /\ (forall k, k <> AUTH_TOKEN_KEY -> k <> USER_DATA_KEY ->
        AsyncStorage.items st1 !! k = AsyncStorage.items st !! k).
Proof.
  intros Hok Hne Hparse st1 after. subst st1 after.
  rewrite multiSet_run, Hok. cbn [fst snd negb AsyncStorage.items].
  split; [reflexivity|].
  unfold getSavedToken. rewrite getItem_run, getSavedUser_run.
  cbn [fst faulty AsyncStorage.faults AsyncStorage.items].
  split; [|split].
  - f_equal. rewrite lookup_insert_ne by (symmetry; exact keys_differ).
    apply lookup_insert_eq.
  - rewrite lookup_insert_eq. unfold user_of_text.
    destruct (JSON.stringify (resp_user data)) as [|c r]; [contradiction|].
    rewrite Hparse. reflexivity.
  - intros k Ht Hu. rewrite !lookup_insert_ne by congruence. reflexivity.
Qed.

Lemma saved_session_is_read_back_witness :
  let codec := sample_codec (resp_user mock_response) in
  let st := AsyncStorage.mk {[ "theme" := "dark" ]} [] in
  let st1 := (saveAuthData mock_response st).2 in
  let after := AsyncStorage.mk (AsyncStorage.items st1) [] in
  (saveAuthData mock_response st).1 = Async.Resolved true
  /\ (getSavedToken after).1 = Async.Resolved (Some (resp_token mock_response))
  /\ (getSavedUser after).1 = Async.Resolved (Some (resp_user mock_response))
  /\ (forall k, k <> AUTH_TOKEN_KEY -> k <> USER_DATA_KEY ->
        AsyncStorage.items st1 !! k = AsyncStorage.items st !! k).
Proof.
  apply (@saved_session_is_read_back (sample_codec (resp_user mock_response))
           mock_response (AsyncStorage.mk {[ "theme" := "dark" ]} []));
    [reflexivity | discriminate | reflexivity].
Defined.

(** X3. Clearing is idempotent: once a clear went through, the store holds
    neither session key, a second clear succeeds and changes no item, and
    loading the session gives nothing and reports nobody logged in. *)
Theorem clearAuthData_idempotent {codec : JSON.Codec} (st : AsyncStorage.t) :
  faulty st = false ->
  let m1 := AsyncStorage.items (clearAuthData st).2 in
  let again := clearAuthData (AsyncStorage.mk m1 []) in
  again.1 = Async.Resolved true
  /\ AsyncStorage.items again.2 = m1
  /\ (load (AsyncStorage.mk m1 [])).1 = Async.Resolved (None, None)
  /\ (isUserLoggedIn (AsyncStorage.mk m1 [])).1 = Async.Resolved false.
Proof.
  intros Hok m1 again. subst again m1.
  rewrite !multiRemove_run, Hok. cbn [fst snd negb faulty AsyncStorage.faults AsyncStorage.items].
  set (m1 := delete USER_DATA_KEY (delete AUTH_TOKEN_KEY (AsyncStorage.items st))).
  assert (m1 !! USER_DATA_KEY = None) as Hu by apply lookup_delete_eq.
  assert (m1 !! AUTH_TOKEN_KEY = None) as Ht.
  { unfold m1. rewrite lookup_delete_ne by (symmetry; exact keys_differ).
    apply lookup_delete_eq. }
  split; [reflexivity|]. split.
  - rewrite (delete_id m1 AUTH_TOKEN_KEY Ht). apply delete_id, Hu.
  - unfold load, Async.all2, isUserLoggedIn, Async.bind, getSavedToken.
    rewrite getSavedUser_run, !getItem_run.
    cbn [fst snd faulty tick AsyncStorage.faults AsyncStorage.items tail].
    rewrite Hu, Ht. split; reflexivity.
Qed.

Lemma clearAuthData_idempotent_witness :
  let codec := sample_codec (resp_user mock_response) in
  let st := (saveAuthData mock_response (AsyncStorage.mk ∅ [])).2 in
  let m1 := AsyncStorage.items (clearAuthData st).2 in
  let again := clearAuthData (AsyncStorage.mk m1 []) in
  again.1 = Async.Resolved true
  /\ AsyncStorage.items again.2 = m1
  /\ (load (AsyncStorage.mk m1 [])).1 = Async.Resolved (None, None)
  /\ (isUserLoggedIn (AsyncStorage.mk m1 [])).1 = Async.Resolved false.
Proof.
  apply (@clearAuthData_idempotent (sample_codec (resp_user mock_response))
           (saveAuthData mock_response (AsyncStorage.mk ∅ [])).2).
  reflexivity.
Defined.

(** X4. The mock [login] resolves for one pair of credentials only.  For
    that pair it answers the mock response whether or not the session could
    be written: when the write fails the store is left as it was and the
    caller is not told.  For any other pair it rejects with the message
    for invalid credentials and touches nothing. *)
Theorem service_login_outcome {codec : JSON.Codec} (credentials : LoginCredentials)
    (st : AsyncStorage.t) :
  (cred_cpf credentials = "123.456.789-10"
   /\ cred_password credentials = "password123" ->
   login credentials st
   = (Async.Resolved mock_response, (saveAuthData mock_response st).2)
   /\ (faulty st = true ->
       AsyncStorage.items (login credentials st).2 = AsyncStorage.items st)
   /\ (faulty st = false ->
       AsyncStorage.items (login credentials st).2 !! AUTH_TOKEN_KEY
       = Some (resp_token mock_response)
       /\ AsyncStorage.items (login credentials st).2 !! USER_DATA_KEY
          = Some (JSON.stringify (resp_user mock_response))))
  /\ (~ (cred_cpf credentials = "123.456.789-10"
         /\ cred_password credentials = "password123") ->
      login credentials st
      = (Async.Rejected (Async.JsError invalid_credentials), st)).
Proof.
  unfold login. split.
  - intros [-> ->]. cbn [String.eqb Ascii.eqb Bool.eqb andb].
    unfold Async.bind, Async.ret. rewrite multiSet_run.
    cbn [fst snd AsyncStorage.items].
    split; [reflexivity|]. split.
    + intros ->. reflexivity.
    + intros ->. split; [|apply lookup_insert_eq].
      rewrite lookup_insert_ne by (symmetry; exact keys_differ).
      apply lookup_insert_eq.
  - intros Hne.
    destruct (String.eqb_spec (cred_cpf credentials) "123.456.789-10") as [Hc|Hc];
      [destruct (String.eqb_spec (cred_password credentials) "password123")
         as [Hp|Hp]|]; try reflexivity.
    contradict Hne. split; assumption.
Qed.

Lemma service_login_outcome_witness :
  let codec := sample_codec (resp_user mock_response) in
  let st := AsyncStorage.mk ∅ [true] in
  login (mkCredentials "123.456.789-10" "password123") st
  = (Async.Resolved mock_response,
     (saveAuthData mock_response st).2)
  /\ AsyncStorage.items
       (login (mkCredentials "123.456.789-10" "password123") st).2 = ∅
  /\ login (mkCredentials "123.456.789-09" "password123") st
     = (Async.Rejected (Async.JsError invalid_credentials), st).
Proof.
  intros codec st.
  destruct (@service_login_outcome codec
              (mkCredentials "123.456.789-10" "password123") st) as [Hok _].
  destruct (Hok (conj eq_refl eq_refl)) as (H1 & H2 & _).
  destruct (@service_login_outcome codec
              (mkCredentials "123.456.789-09" "password123") st) as [_ Hbad].
  split; [exact H1|]. split; [apply H2; reflexivity|].
  apply Hbad. intros [Hc _]. discriminate Hc.
Defined.

End StoreExtras.

(** ** More on the hook *)

Module HookExtras.
Import Types AuthService UseAuth AuthSpec StoreSpec StoreProofs HookProofs.

(** What [logout] does, whatever the service answers. *)
Lemma logout_run (AuthService : Api) (w : World) :
  logout AuthService w
  = (Async.Resolved tt,
     mkWorld logged_out (isInitialized w) (api_logout AuthService (storage w)).2).
Proof.
  unfold logout, Async.try_catch, Async.bind. rewrite service_run.
  destruct (api_logout AuthService (storage w)) as [[success|e] st']; reflexivity.
Qed.

(** What the hook's [login] does when the service resolves. *)
Lemma login_resolved_run (AuthService : Api) (credentials : LoginCredentials)
    (w : World) (response : LoginResponse) (st' : AsyncStorage.t) :
  api_login AuthService credentials (storage w) = (Async.Resolved response, st') ->
  login AuthService credentials w
  = (Async.Resolved response,
     mkWorld (authenticated_as (resp_user response) (resp_token response))
       (isInitialized w) st').
Proof.
  intros Hok. unfold login, Async.try_catch, Async.bind.
  simpl. rewrite service_run. simpl. rewrite Hok. reflexivity.
Qed.

(** The hook's [login] with the credentials the mock service accepts. *)
Lemma login_run_ok {codec : JSON.Codec} (w : World) :
  login api (mkCredentials "123.456.789-10" "password123") w
  = (Async.Resolved mock_response,
     mkWorld
       (authenticated_as (resp_user mock_response) (resp_token mock_response))
       (isInitialized w) (saveAuthData mock_response (storage w)).2).
Proof.
  apply login_resolved_run. cbn [api api_login]. unfold AuthService.login.
  cbn [cred_cpf cred_password String.eqb Ascii.eqb Bool.eqb andb].
  unfold Async.bind, Async.ret. rewrite multiSet_run. reflexivity.
Qed.

(** [checkAuthStatus] on a store that holds a whole session, the reads
    going through. *)
Lemma checkAuthStatus_restores_run {codec : JSON.Codec}
    (st : AsyncStorage.t) (u : User) (tok : string) :
  AsyncStorage.faults st = [] ->
  AsyncStorage.items st !! AUTH_TOKEN_KEY = Some tok ->
  tok <> EmptyString ->
  user_of_text (AsyncStorage.items st !! USER_DATA_KEY) = Some u ->
  checkAuthStatus api (mount st)
  = (Async.Resolved tt, mkWorld (authenticated_as u tok) true st).
Proof.
  intros Hf Htok Hne Hu. rewrite checkAuthStatus_run.
  cbn [mount storage state].
  assert (tick st = st) as Htick.
  { unfold tick. destruct st as [m fs]. simpl in *. subst fs. reflexivity. }
  rewrite !Htick. unfold read, faulty. rewrite Hf, Htok, Hu.
  destruct tok as [|c r]; [contradiction|]. reflexivity.
Qed.

(** X5. When the service's [login] resolves with a response, the hook's
    [login] resolves with the same response and leaves the auth state
    authenticated with the user and the token of the response, nothing
    loading and no error, whatever the state was before. *)
Theorem login_success (AuthService : Api) (credentials : LoginCredentials)
    (w : World) (response : LoginResponse) (st' : AsyncStorage.t) :
  api_login AuthService credentials (storage w) = (Async.Resolved response, st') ->
  login AuthService credentials w
  = (Async.Resolved response,
     mkWorld (authenticated_as (resp_user response) (resp_token response))
       (isInitialized w) st').
Proof. apply login_resolved_run. Qed.

Lemma login_success_witness :
  let codec := sample_codec (resp_user mock_response) in
  let w :=
    mkWorld (authReducer initialState (LOGIN_FAILURE "earlier failure")) true
      (AsyncStorage.mk ∅ []) in
  login api (mkCredentials "123.456.789-10" "password123") w
  = (Async.Resolved mock_response,
     mkWorld
       (authenticated_as (resp_user mock_response) (resp_token mock_response))
       true
       (saveAuthData mock_response (AsyncStorage.mk ∅ [])).2).
Proof.
  intros codec w.
  exact (login_success (@api codec)
           (mkCredentials "123.456.789-10" "password123") w mock_response
           (saveAuthData mock_response (AsyncStorage.mk ∅ [])).2 eq_refl).
Defined.

(** Run every pending call of the service's [clearAuthData], whatever it
    answers. *)
Ltac run_clear :=
  repeat first
    [ rewrite service_run; cbn [fst snd storage state isInitialized]
    | match goal with
      | |- context [api_clearAuthData ?a ?st] =>
          destruct (api_clearAuthData a st) as [[?|?] ?]; cbn [fst snd]
      end ].

(** X6. [checkAuthStatus] never rejects and always sets [isInitialized],
    whatever the service does, rejections included; it leaves nothing
    loading, and the auth state it leaves is the logged-out one or the one
    of a successful login with a non-empty token, so the guard's spinner is
    off afterwards. *)
Theorem checkAuthStatus_always_initializes (AuthService : Api) (w : World) :
  exists w' : World,
    checkAuthStatus AuthService w = (Async.Resolved tt, w')
    /\ isInitialized w' = true
    /\ (state w' = logged_out
        \/ exists u tok, tok <> EmptyString /\ state w' = authenticated_as u tok)
    /\ AuthGuard.guard_isLoading (isLoading (state w')) (isInitialized w') = false.
Proof.
  unfold checkAuthStatus, Async.finally, Async.try_catch, Async.bind, Async.all2.
  rewrite !service_run. cbn [fst snd storage state isInitialized].
  destruct (api_isUserLoggedIn AuthService (storage w)) as [[[|]|e0] st0];
    cbn [fst snd].
  2,3: run_clear; cbn; eexists; (split; [reflexivity|]); cbn; auto.
  rewrite !service_run. cbn [fst snd storage state isInitialized].
  destruct (api_getSavedUser AuthService st0) as [[[u|]|e1] st1]; cbn [fst snd];
    destruct (api_getSavedToken AuthService st1) as [[[[|c tok]|]|e2] st2];
    cbn [fst snd truthy]; run_clear;
    cbn; eexists; (split; [reflexivity|]); cbn;
    (split; [reflexivity|]); (split; [|reflexivity]);
    solve [left; reflexivity
          | right; exists u, (String c tok); split; [discriminate | reflexivity]].
Qed.

(** X7. From a store that holds a non-empty token and a user record that
    parses, and with the reads going through, [checkAuthStatus] ends
    authenticated with that user and that token and leaves the stored items
    as they were. *)
Theorem checkAuthStatus_restores_session {codec : JSON.Codec}
    (st : AsyncStorage.t) (u : User) (tok : string) :
  AsyncStorage.faults st = [] ->
  AsyncStorage.items st !! AUTH_TOKEN_KEY = Some tok ->
  tok <> EmptyString ->
  user_of_text (AsyncStorage.items st !! USER_DATA_KEY) = Some u ->
  checkAuthStatus api (mount st)
  = (Async.Resolved tt, mkWorld (authenticated_as u tok) true st).
Proof. apply checkAuthStatus_restores_run. Qed.

Lemma checkAuthStatus_restores_session_witness :
  let codec := sample_codec (resp_user mock_response) in
  let st := (saveAuthData mock_response (AsyncStorage.mk ∅ [])).2 in
  checkAuthStatus api (mount st)
  = (Async.Resolved tt,
     mkWorld
       (authenticated_as (resp_user mock_response) (resp_token mock_response))
       true st).
Proof.
  intros codec st.
  apply (@checkAuthStatus_restores_session codec st).
  - reflexivity.
  - unfold st. rewrite multiSet_run. cbn [snd faulty AsyncStorage.faults AsyncStorage.items].
    rewrite lookup_insert_ne by (symmetry; exact keys_differ).
    apply lookup_insert_eq.
  - discriminate.
  - unfold st. rewrite multiSet_run. cbn [snd faulty AsyncStorage.faults AsyncStorage.items].
    rewrite lookup_insert_eq. reflexivity.
Defined.

(** X8. [checkAuthStatus] fails safe: whichever storage calls fail, it ends
    authenticated only if the store holds a non-empty token and a user
    record that parses, and then the auth state carries exactly those. *)
Theorem checkAuthStatus_fails_safe {codec : JSON.Codec} (st : AsyncStorage.t) :
  let w' := (checkAuthStatus api (mount st)).2 in
  isAuthenticated (state w') = true ->
  exists u tok,
    AsyncStorage.items st !! AUTH_TOKEN_KEY = Some tok
    /\ tok <> EmptyString
    /\ user_of_text (AsyncStorage.items st !! USER_DATA_KEY) = Some u
    /\ state w' = authenticated_as u tok
    /\ AsyncStorage.items (storage w') = AsyncStorage.items st.
Proof.
  intros w'. subst w'. rewrite checkAuthStatus_run.
  cbn [mount storage state snd].
  destruct (truthy (read AUTH_TOKEN_KEY st)); [|discriminate].
  destruct (user_of_text (read USER_DATA_KEY (tick st))) as [u|] eqn:Hu;
    [|discriminate].
  destruct (truthy (read AUTH_TOKEN_KEY (tick (tick st)))) eqn:Ht; [|discriminate].
  destruct (read AUTH_TOKEN_KEY (tick (tick st))) as [tok|] eqn:Hr; [|discriminate].
  intros _. exists u, tok. unfold read in Hu, Hr.
  destruct (faulty (tick st)); [discriminate Hu|].
  destruct (faulty (tick (tick st))); [discriminate Hr|].
  cbn [tick AsyncStorage.items] in *.
  repeat split; try assumption.
  intros ->. discriminate Ht.
Qed.

Lemma checkAuthStatus_fails_safe_witness :
  let codec := sample_codec (resp_user mock_response) in
  let st := (saveAuthData mock_response (AsyncStorage.mk ∅ [])).2 in
  let w' := (checkAuthStatus api (mount st)).2 in
  exists u tok,
    AsyncStorage.items st !! AUTH_TOKEN_KEY = Some tok
    /\ tok <> EmptyString
    /\ user_of_text (AsyncStorage.items st !! USER_DATA_KEY) = Some u
    /\ state w' = authenticated_as u tok
    /\ AsyncStorage.items (storage w') = AsyncStorage.items st.
Proof.
  intros codec st w'.
  apply (@checkAuthStatus_fails_safe codec st).
  subst w'. rewrite checkAuthStatus_run. reflexivity.
Defined.

(** X9. A login survives a restart: after the hook's [login] with the
    accepted credentials, with the write going through, a hook mounted
    afresh on the same store ends [checkAuthStatus] authenticated with the
    user and the token of that login. *)
Theorem login_survives_restart {codec : JSON.Codec} (w : World) :
  faulty (storage w) = false ->
  JSON.stringify (resp_user mock_response) <> EmptyString ->
  JSON.parse (JSON.stringify (resp_user mock_response))
  = JSON.Value (resp_user mock_response) ->
  let w1 := (login api (mkCredentials "123.456.789-10" "password123") w).2 in
  let restarted := mount (AsyncStorage.mk (AsyncStorage.items (storage w1)) []) in
  (checkAuthStatus api restarted).2
  = mkWorld
      (authenticated_as (resp_user mock_response) (resp_token mock_response))
      true (storage restarted).
Proof.
  intros Hok Hne Hparse w1 restarted. subst restarted w1.
  rewrite (login_run_ok w). cbn [snd storage].
  rewrite multiSet_run, Hok. cbn [snd AsyncStorage.items mount storage].
  erewrite checkAuthStatus_restores_run; [reflexivity | reflexivity | | discriminate |].
  - cbn [AsyncStorage.items].
    rewrite lookup_insert_ne by (symmetry; exact keys_differ).
    apply lookup_insert_eq.
  - cbn [AsyncStorage.items]. rewrite lookup_insert_eq. unfold user_of_text.
    destruct (JSON.stringify (resp_user mock_response)) as [|c r];
      [contradiction|]. rewrite Hparse. reflexivity.
Qed.

Lemma login_survives_restart_witness :
  let codec := sample_codec (resp_user mock_response) in
  let w := mount (AsyncStorage.mk ∅ []) in
  let w1 := (login api (mkCredentials "123.456.789-10" "password123") w).2 in
  let restarted := mount (AsyncStorage.mk (AsyncStorage.items (storage w1)) []) in
  (checkAuthStatus api restarted).2
  = mkWorld
      (authenticated_as (resp_user mock_response) (resp_token mock_response))
      true (storage restarted).
Proof.
  apply (@login_survives_restart (sample_codec (resp_user mock_response))
           (mount (AsyncStorage.mk ∅ [])));
    [reflexivity | discriminate | reflexivity].
Defined.

(** X10. A logout whose clear goes through is final: whatever was stored
    and whichever later storage calls fail, a hook mounted afresh on the
    store ends [checkAuthStatus] logged out. *)
Theorem logout_survives_restart {codec : JSON.Codec} (w : World)
    (later_faults : list bool) :
  faulty (storage w) = false ->
  let w1 := (logout api w).2 in
  let restarted :=
    mount (AsyncStorage.mk (AsyncStorage.items (storage w1)) later_faults) in
  state w1 = logged_out
  /\ both_absent (AsyncStorage.items (storage w1))
  /\ state (checkAuthStatus api restarted).2 = logged_out.
Proof.
  intros Hok w1 restarted. subst restarted w1.
  rewrite logout_run. cbn [snd state storage api api_logout].
  unfold AuthService.logout. rewrite multiRemove_run, Hok.
  cbn [snd AsyncStorage.items].
  set (m1 := delete USER_DATA_KEY (delete AUTH_TOKEN_KEY (AsyncStorage.items (storage w)))).
  assert (m1 !! AUTH_TOKEN_KEY = None) as Ht.
  { unfold m1. rewrite lookup_delete_ne by (symmetry; exact keys_differ).
    apply lookup_delete_eq. }
  split; [reflexivity|]. split; [split; [exact Ht | apply lookup_delete_eq]|].
  rewrite checkAuthStatus_run. cbn [mount storage state snd].
  assert (truthy (read AUTH_TOKEN_KEY (AsyncStorage.mk m1 later_faults)) = false)
    as ->; [|reflexivity].
  unfold read. destruct (faulty (AsyncStorage.mk m1 later_faults)); [reflexivity|].
  cbn [AsyncStorage.items]. rewrite Ht. reflexivity.
Qed.

Lemma logout_survives_restart_witness :
  let codec := sample_codec (resp_user mock_response) in
  let w :=
    mkWorld
      (authenticated_as (resp_user mock_response) (resp_token mock_response))
      true (saveAuthData mock_response (AsyncStorage.mk ∅ [])).2 in
  let w1 := (logout api w).2 in
  let restarted :=
    mount (AsyncStorage.mk (AsyncStorage.items (storage w1)) [false; true]) in
  state w1 = logged_out
  /\ both_absent (AsyncStorage.items (storage w1))
  /\ state (checkAuthStatus api restarted).2 = logged_out.
Proof.
  intros codec w.
  apply (@logout_survives_restart codec w [false; true]). reflexivity.
Defined.

(** X11. A logout whose clear fails is undone by a restart: the auth state
    is logged out at once, but the stored session stays, and a hook mounted
    afresh on the store, with its reads going through, ends
    [checkAuthStatus] authenticated again with the stored user and token. *)
Theorem failed_logout_is_undone_by_restart {codec : JSON.Codec} (w : World)
    (u : User) (tok : string) :
  faulty (storage w) = true ->
  AsyncStorage.items (storage w) !! AUTH_TOKEN_KEY = Some tok ->
  tok <> EmptyString ->
  user_of_text (AsyncStorage.items (storage w) !! USER_DATA_KEY) = Some u ->
  let w1 := (logout api w).2 in
  let restarted := mount (AsyncStorage.mk (AsyncStorage.items (storage w1)) []) in
  (logout api w).1 = Async.Resolved tt
  /\ state w1 = logged_out
  /\ AsyncStorage.items (storage w1) = AsyncStorage.items (storage w)
  /\ state (checkAuthStatus api restarted).2 = authenticated_as u tok.
Proof.
  intros Hfault Htok Hne Hu w1 restarted. subst restarted w1.
  rewrite logout_run. cbn [fst snd state storage api api_logout].
  unfold AuthService.logout. rewrite multiRemove_run, Hfault.
  cbn [snd AsyncStorage.items].
  split; [reflexivity|]. split; [reflexivity|]. split; [reflexivity|].
  erewrite checkAuthStatus_restores_run; [reflexivity | reflexivity | | |];
    cbn [AsyncStorage.items]; eassumption.
Qed.

Lemma failed_logout_is_undone_by_restart_witness :
  let codec := sample_codec (resp_user mock_response) in
  let stored := AsyncStorage.items (saveAuthData mock_response (AsyncStorage.mk ∅ [])).2 in
  let w :=
    mkWorld
      (authenticated_as (resp_user mock_response) (resp_token mock_response))
      true (AsyncStorage.mk stored [true]) in
  let w1 := (logout api w).2 in
  let restarted := mount (AsyncStorage.mk (AsyncStorage.items (storage w1)) []) in
  (logout api w).1 = Async.Resolved tt
  /\ state w1 = logged_out
  /\ AsyncStorage.items (storage w1) = AsyncStorage.items (storage w)
  /\ state (checkAuthStatus api restarted).2
     = authenticated_as (resp_user mock_response) (resp_token mock_response).
Proof.
  intros codec stored w.
  apply (@failed_logout_is_undone_by_restart codec w
           (resp_user mock_response) (resp_token mock_response)).
  - reflexivity.
  - unfold w, stored. cbn [storage AsyncStorage.items].
    rewrite multiSet_run. cbn [snd faulty AsyncStorage.faults AsyncStorage.items].
    rewrite lookup_insert_ne by (symmetry; exact keys_differ).
    apply lookup_insert_eq.
  - discriminate.
  - unfold w, stored. cbn [storage AsyncStorage.items].
    rewrite multiSet_run. cbn [snd faulty AsyncStorage.faults AsyncStorage.items].
    rewrite lookup_insert_eq. reflexivity.
Defined.

End HookExtras.

(** ** More on the route guard and the index route *)

Module GuardExtras.
Import Types AuthGuard AppIndex.

(** X12. The guard sends a visitor who is not authenticated to [/login]
    and nowhere else, and an authenticated user to the segment of the
    user's own role and nowhere else. *)
Theorem guard_redirect_targets (isAuthenticated isInitialized : bool)
    (user : option User) (pathname : string) (segments : list string)
    (target : string) :
  useProtectedRoute_effect isAuthenticated isInitialized user pathname segments
  = Some target ->
  isInitialized = true
  /\ ((isAuthenticated = false /\ target = "/login")
      \/ (isAuthenticated = true
          /\ exists u, user = Some u /\ target = "/" +:+ ROLE_ROUTES (userType u))).
Proof.
  unfold useProtectedRoute_effect. cbv zeta.
  destruct isInitialized; [|discriminate]. cbn [negb].
  destruct isAuthenticated; cbn [negb andb].
  - rewrite andb_false_r. destruct user as [u|]; [|discriminate].
    intros H. split; [reflexivity|]. right. split; [reflexivity|]. exists u.
    split; [reflexivity|].
    destruct (includes PUBLIC_ROUTES (currentRoute pathname)); cbn [andb] in H.
    + now injection H as <-.
    + destruct (nonempty (currentModule segments)
                && negb (currentModule segments =? ROLE_ROUTES (userType u))%string);
        [|discriminate].
      destruct (includes ROLE_ROUTES_values (currentModule segments));
        [|discriminate].
      now injection H as <-.
  - rewrite andb_true_r.
    destruct (includes PUBLIC_ROUTES (currentRoute pathname)); cbn [negb].
    + destruct user; rewrite ?andb_false_r; discriminate.
    + intros H. injection H as <-. split; [reflexivity|]. left. split; reflexivity.
Qed.

Lemma guard_redirect_targets_witness :
  let student := Some (mkUser "7" "Ana" "529.982.247-25" "ana@example.com" None STUDENT) in
  true = true
  /\ ((true = false /\ "/student" = "/login")
      \/ (true = true
          /\ exists u, student = Some u
                       /\ "/student" = "/" +:+ ROLE_ROUTES (userType u))).
Proof.
  intros student.
  exact (guard_redirect_targets true true student "/trainer/students"
           ["trainer"; "students"] "/student" eq_refl).
Defined.

(** X13. A redirect is final: at the page the guard sends to, with the
    same auth state, the guard asks for no further redirect. *)
Theorem guard_redirect_is_stable (isAuthenticated isInitialized : bool)
    (user : option User) (pathname : string) (segments : list string)
    (target : string) :
  useProtectedRoute_effect isAuthenticated isInitialized user pathname segments
  = Some target ->
  useProtectedRoute_effect isAuthenticated isInitialized user target
    [Js.substring1 target] = None.
Proof.
  unfold useProtectedRoute_effect at 1. cbv zeta.
  destruct isInitialized; [|discriminate]. cbn [negb].
  destruct isAuthenticated; cbn [negb andb].
  - rewrite andb_false_r. destruct user as [u|]; [|discriminate].
    intros H.
    assert (target = "/" +:+ ROLE_ROUTES (userType u)) as ->.
    { destruct (includes PUBLIC_ROUTES (currentRoute pathname)); cbn [andb] in H.
      - now injection H as <-.
      - destruct (nonempty (currentModule segments)
                  && negb (currentModule segments =? ROLE_ROUTES (userType u))%string);
          [|discriminate].
        destruct (includes ROLE_ROUTES_values (currentModule segments));
          [|discriminate].
        now injection H as <-. }
    unfold useProtectedRoute_effect. destruct (userType u); reflexivity.
  - rewrite andb_true_r.
    destruct (includes PUBLIC_ROUTES (currentRoute pathname)); cbn [negb].
    + destruct user; rewrite ?andb_false_r; discriminate.
    + intros H. injection H as <-. destruct user; reflexivity.
Qed.

Lemma guard_redirect_is_stable_witness :
  useProtectedRoute_effect false true None "/login" [Js.substring1 "/login"] = None.
Proof.
  exact (guard_redirect_is_stable false true None "/admin/users"
           ["admin"; "users"] "/login" eq_refl).
Defined.

(** X14. The index route shows the spinner until the hook is initialized
    and redirects afterwards: to [/login] exactly when nobody is
    authenticated, no user is held, or the user's role is none of the three
    (the [default] of the [switch]); otherwise to the segment the guard
    maps the user's role to.  For a user of one of the three roles, and
    when no user is held, the guard leaves the page it redirects to
    alone. *)
Theorem index_agrees_with_guard (isAuthenticated : bool)
    (user : option RoleValue) :
  Index isAuthenticated false user = Spinner
  /\ exists href : string,
       Index isAuthenticated true user = Redirect href
       /\ (href = "/login"
           <-> isAuthenticated = false \/ user = None \/ user = Some UnknownRole)
       /\ (forall t, isAuthenticated = true -> user = Some (Role t) ->
             href = "/" +:+ ROLE_ROUTES t)
       /\ (forall held : option User, user = role_of <$> held ->
             useProtectedRoute_effect isAuthenticated true held href
               [Js.substring1 href] = None).
Proof.
  split; [reflexivity|].
  destruct isAuthenticated, user as [[[]|]|]; cbn;
    eexists; (split; [reflexivity|]);
    (split; [split; [try discriminate; intros _; auto
                    | intros [H|[H|H]]; try discriminate H; reflexivity]|]);
    (split; [intros t H1 H2; try discriminate H1; try discriminate H2;
             injection H2 as <-; reflexivity|]);
    intros [[i n c e p r]|] Hheld; cbn in Hheld; try discriminate Hheld;
    try (injection Hheld as <-); reflexivity.
Qed.

Lemma index_agrees_with_guard_witness :
  Index true true (Some UnknownRole) = Redirect "/login"
  /\ Index true true (Some (Role STUDENT)) = Redirect "/student"
  /\ useProtectedRoute_effect true true
       (Some (mkUser "7" "Ana" "529.982.247-25" "ana@example.com" None STUDENT))
       "/student" ["student"] = None.
Proof.
  destruct (index_agrees_with_guard true (Some UnknownRole))
    as (_ & h1 & Hrun1 & Hlogin & _).
  destruct (index_agrees_with_guard true (Some (Role STUDENT)))
    as (_ & h2 & Hrun2 & _ & Hrole & Hguard).
  assert (h1 = "/login") as E1 by (apply Hlogin; right; right; reflexivity).
  assert (h2 = "/student") as E2 by (apply (Hrole STUDENT); reflexivity).
  subst h1 h2. split; [exact Hrun1|]. split; [exact Hrun2|].
  exact (Hguard
           (Some (mkUser "7" "Ana" "529.982.247-25" "ana@example.com" None STUDENT))
           eq_refl).
Defined.

End GuardExtras.

(** ** More on the CPF field *)

Module CpfExtras.
Import Js Validators CpfSpec CpfProofs.

Local Arguments is_digit : simpl never.
Local Arguments code_units : simpl never.

Lemma digit_code_units (a : ascii) : is_digit a = true -> code_units a = 1%nat.
Proof.
  unfold is_digit, code_units. cbv zeta.
  intros [_ H]%andb_true_iff. apply Nat.leb_le in H.
  destruct (Nat.ltb_spec (nat_of_ascii a) 128); [reflexivity | lia].
Qed.

Ltac use_code_units :=
  repeat match goal with
    | H : is_digit ?a = true |- context [code_units ?a] =>
        rewrite (digit_code_units a H)
    end.

(** Evaluate [formatCpf] and what is applied to its result on a string
    whose leading characters are known digits. *)
Ltac eval_format :=
  unfold formatCpf, slice, slice_from;
  repeat (progress
            (simpl;
             change (is_digit ".") with false; change (is_digit "-") with false;
             change (code_units ".") with 1%nat; change (code_units "-") with 1%nat;
             cbv iota; use_digits; use_code_units)).

(** The digits of a formatted string are the first eleven digits that went
    in. *)
Lemma replace_nondigits_formatCpf_any (s : string) :
  replace_nondigits (formatCpf s) = slice (replace_nondigits s) 0 11.
Proof.
  unfold formatCpf at 1. cbv zeta.
  pose proof (replace_nondigits_all_digits s) as Hd.
  generalize dependent (replace_nondigits s). intros c Hd.
  do 12 (try (peel c Hd)); eval_format; reflexivity.
Qed.

Lemma formatCpf_of_digits (s : string) :
  formatCpf s = formatCpf (replace_nondigits s).
Proof. unfold formatCpf. rewrite replace_nondigits_idem. reflexivity. Qed.

Lemma formatCpf_fixed (s : string) : formatCpf (formatCpf s) = formatCpf s.
Proof.
  rewrite (formatCpf_of_digits (formatCpf s)), replace_nondigits_formatCpf_any.
  rewrite (formatCpf_of_digits s).
  pose proof (replace_nondigits_all_digits s) as Hd.
  generalize dependent (replace_nondigits s). intros c Hd.
  do 12 (try (peel c Hd)); eval_format; reflexivity.
Qed.

Lemma formatCpf_length_14 (s : string) :
  (length_utf16 (formatCpf s) <= 14)%nat
  /\ (length_utf16 (formatCpf s) = 14%nat
      <-> (11 <= String.length (replace_nondigits s))%nat).
Proof.
  unfold formatCpf. cbv zeta.
  pose proof (replace_nondigits_all_digits s) as Hd.
  generalize dependent (replace_nondigits s). intros c Hd.
  do 12 (try (peel c Hd)); eval_format; lia.
Qed.

(** X15. Formatting is idempotent and sees the digits only: formatting a
    formatted string changes nothing, every character that is not a digit
    is ignored, and the digits of the result are the first eleven digits of
    the input. *)
Theorem formatCpf_idempotent (s : string) :
  formatCpf (formatCpf s) = formatCpf s
  /\ formatCpf s = formatCpf (replace_nondigits s)
  /\ replace_nondigits (formatCpf s) = slice (replace_nondigits s) 0 11.
Proof.
  split; [apply formatCpf_fixed|].
  split; [apply formatCpf_of_digits | apply replace_nondigits_formatCpf_any].
Qed.

(** X16. A formatted CPF never has more than 14 characters, the
    [maxLength] of the field, and it has 14 exactly when the input holds
    eleven digits or more. *)
Theorem formatCpf_length (s : string) :
  (length_utf16 (formatCpf s) <= 14)%nat
  /\ (length_utf16 (formatCpf s) = 14%nat
      <-> (11 <= String.length (replace_nondigits s))%nat).
Proof. apply formatCpf_length_14. Qed.

Lemma slice_11_short (c : string) :
  (String.length c < 11)%nat -> (String.length (slice c 0 11) < 11)%nat.
Proof.
  intros H. do 11 (destruct c as [|? c]; [simpl; lia|]).
  simpl in H. lia.
Qed.

Lemma isCpfValid_short (c : string) :
  all_digits c = true -> (String.length c < 11)%nat -> isCpfValid c = false.
Proof.
  intros Hd Hlen. unfold isCpfValid. rewrite (replace_nondigits_fixed c Hd).
  destruct (Nat.eqb_spec (String.length c) 11); [lia | reflexivity].
Qed.

Lemma slice_all_digits (c : string) (n : nat) :
  all_digits c = true -> all_digits (slice c 0 n) = true.
Proof.
  unfold slice. rewrite Nat.sub_0_r. revert n.
  induction c as [|a r IH]; intros [|n] Hd; try reflexivity.
  simpl in *. apply andb_true_iff in Hd as [Ha Hr].
  rewrite Ha. simpl. apply IH, Hr.
Qed.

Lemma handleChangeText_flag (text : string) :
  (CpfInput.handleChangeText text).2
  = isCpfValid (slice (replace_nondigits text) 0 11).
Proof.
  unfold CpfInput.handleChangeText. cbv zeta. cbn [snd].
  rewrite <- formatCpf_of_digits.
  assert (isCpfValid (formatCpf text)
          = isCpfValid (slice (replace_nondigits text) 0 11)) as Hsame.
  { unfold isCpfValid at 1. rewrite replace_nondigits_formatCpf_any.
    unfold isCpfValid.
    rewrite (replace_nondigits_fixed (slice (replace_nondigits text) 0 11));
      [reflexivity|].
    apply slice_all_digits, replace_nondigits_all_digits. }
  destruct (formatCpf_length_14 text) as [_ H14].
  destruct (Nat.eqb_spec (length_utf16 (formatCpf text)) 14) as [E|E];
    [exact Hsame|].
  symmetry. apply isCpfValid_short.
  - apply slice_all_digits, replace_nondigits_all_digits.
  - apply slice_11_short.
    destruct (Nat.lt_ge_cases (String.length (replace_nondigits text)) 11);
      [assumption|]. contradict E. now apply H14.
Qed.

(** X17. What the CPF field reports on a change.  The value it shows is
    the formatted text, and typing the shown value again changes nothing;
    the flag it reports is the verdict of [isCpfValid] on the first eleven
    digits typed, so it is the verdict on the shown value, and a text with
    more than eleven digits is judged by its first eleven. *)
Theorem handleChangeText_reports (text : string) :
  (CpfInput.handleChangeText text).1 = formatCpf text
  /\ CpfInput.handleChangeText (CpfInput.handleChangeText text).1
     = CpfInput.handleChangeText text
  /\ (CpfInput.handleChangeText text).2
     = isCpfValid (slice (replace_nondigits text) 0 11)
  /\ ((CpfInput.handleChangeText text).2 = true ->
      isCpfValid (CpfInput.handleChangeText text).1 = true).
Proof.
  assert ((CpfInput.handleChangeText text).1 = formatCpf text) as H1.
  { unfold CpfInput.handleChangeText. cbv zeta. cbn [fst].
    symmetry. apply formatCpf_of_digits. }
  split; [exact H1|]. split; [|split; [apply handleChangeText_flag|]].
  - rewrite H1. unfold CpfInput.handleChangeText. cbv zeta.
    rewrite <- !formatCpf_of_digits, formatCpf_fixed. reflexivity.
  - rewrite H1, handleChangeText_flag. intros H.
    unfold isCpfValid at 1. rewrite replace_nondigits_formatCpf_any.
    unfold isCpfValid in H.
    rewrite (replace_nondigits_fixed (slice (replace_nondigits text) 0 11)) in H;
      [exact H|].
    apply slice_all_digits, replace_nondigits_all_digits.
Qed.

Lemma handleChangeText_reports_witness :
  CpfInput.handleChangeText "529982247259" = ("529.982.247-25", true)
  /\ isCpfValid "529982247259" = false.
Proof.
  destruct (handleChangeText_reports "529982247259") as (H1 & _ & H3 & _).
  split; [|reflexivity].
  rewrite (surjective_pairing (CpfInput.handleChangeText "529982247259")).
  rewrite H1, H3. reflexivity.
Defined.

(** X18. The first nine digits decide a CPF: two strings that
    [isCpfValid] accepts and whose first nine digits agree have the same
    eleven digits.  So changing a check digit of a valid CPF always makes
    it invalid. *)
Theorem check_digits_are_determined (s s' : string) :
  isCpfValid s = true -> isCpfValid s' = true ->
  take 9 (digits s) = take 9 (digits s') ->
  digits s = digits s'.
Proof.
  intros Hs Hs'. apply isCpfValid_iff_valid in Hs, Hs'.
  destruct Hs as (Hlen & _ & H9 & H10). destruct Hs' as (Hlen' & _ & H9' & H10').
  revert Hlen H9 H10 Hlen' H9' H10'.
  generalize (digits s) (digits s'). intros ds ds'.
  intros Hlen H9 H10 Hlen' H9' H10' Htake.
  do 12 (destruct ds as [|? ds]; try discriminate Hlen).
  do 12 (destruct ds' as [|? ds']; try discriminate Hlen').
  cbn [take] in Htake. injection Htake as -> -> -> -> -> -> -> -> ->.
  unfold check_digit in *. cbn [weighted nth] in *.
  assert (z8 = z19) as -> by congruence.
  assert (z9 = z20) as -> by congruence.
  reflexivity.
Qed.

Lemma check_digits_are_determined_witness :
  digits "529.982.247-25" = digits "52998224725".
Proof.
  exact (check_digits_are_determined "529.982.247-25" "52998224725"
           eq_refl eq_refl eq_refl).
Defined.

Lemma formatCpf_empty_or_counted (s : string) :
  formatCpf s = EmptyString \/ (0 < length_utf16 (formatCpf s))%nat.
Proof.
  unfold formatCpf. cbv zeta.
  pose proof (replace_nondigits_all_digits s) as Hd.
  generalize dependent (replace_nondigits s). intros c Hd.
  do 12 (try (peel c Hd)); eval_format; solve [left; reflexivity | right; lia].
Qed.

(** X25. The message under the CPF field follows the flag the field
    reports.  For the value the field shows after a change, once the field
    was touched and no error is passed in, no message is shown exactly when
    the field is empty or the flag is true; the message is the one for an
    incomplete CPF when fewer than eleven digits were typed and the one for
    an invalid CPF otherwise.  A non-empty error passed in wins over both. *)
Theorem displayError_follows_flag (text : string) :
  let shown := (CpfInput.handleChangeText text).1 in
  let flag := (CpfInput.handleChangeText text).2 in
  (CpfInput.displayError None true shown = None
   <-> shown = EmptyString \/ flag = true)
  /\ (CpfInput.displayError None true shown = Some "CPF incompleto"
      <-> shown <> EmptyString
          /\ (String.length (replace_nondigits text) < 11)%nat)
  /\ (forall (c : ascii) (r : string) (touched : bool),
        CpfInput.displayError (Some (String c r)) touched shown
        = Some (String c r))
  /\ CpfInput.displayError None false shown = None.
Proof.
  intros shown flag. subst shown flag.
  unfold CpfInput.handleChangeText. cbv zeta. cbn [fst snd].
  rewrite <- formatCpf_of_digits.
  destruct (formatCpf_length_14 text) as [Hle H14].
  pose proof (formatCpf_empty_or_counted text) as Hempty.
  unfold CpfInput.displayError. cbn [andb].
  set (v := formatCpf text) in *.
  split; [|split; [|split; [reflexivity|reflexivity]]].
  - destruct Hempty as [E|Hpos].
    + rewrite E. cbn. split; [auto | reflexivity].
    + destruct (Nat.ltb_spec 0 (length_utf16 v)); [|lia].
      destruct (Nat.ltb_spec (length_utf16 v) 14) as [Hlt|Hge].
      * destruct (Nat.eqb_spec (length_utf16 v) 14); [lia|]. cbn.
        split; [discriminate|]. intros [E|E]; [|discriminate].
        rewrite E in Hpos. simpl in Hpos. lia.
      * destruct (Nat.eqb_spec (length_utf16 v) 14); [|lia]. cbn.
        destruct (isCpfValid v); cbn; split; auto; try discriminate.
        intros [E|E]; [|discriminate]. rewrite E in Hpos. simpl in Hpos. lia.
  - destruct Hempty as [E|Hpos].
    + rewrite E. cbn. split; [discriminate | intros [H _]; contradiction].
    + destruct (Nat.ltb_spec 0 (length_utf16 v)); [|lia].
      destruct (Nat.ltb_spec (length_utf16 v) 14) as [Hlt|Hge]; cbn.
      * split; [|reflexivity]. intros _. split.
        -- intros E. rewrite E in Hpos. simpl in Hpos. lia.
        -- destruct (Nat.lt_ge_cases (String.length (replace_nondigits text)) 11)
             as [Hshort|Hfull]; [assumption|]. apply H14 in Hfull. lia.
      * assert (length_utf16 v = 14%nat) as E14 by lia.
        rewrite E14. cbn. apply H14 in E14.
        destruct (isCpfValid v); cbn; split; try discriminate;
          intros [_ Hlt]; lia.
Qed.

Lemma displayError_follows_flag_witness :
  CpfInput.displayError None true "529.982" = Some "CPF incompleto"
  /\ CpfInput.displayError None true "529.982.247-25" = None.
Proof.
  destruct (displayError_follows_flag "529982") as (_ & Hinc & _).
  destruct (displayError_follows_flag "52998224725") as (Hnone & _).
  cbv zeta in *. split.
  - apply Hinc. split; [discriminate | simpl; lia].
  - apply Hnone. right. reflexivity.
Defined.

End CpfExtras.

(** ** The login screen *)

Module ScreenExtras.
Import Types AuthSpec.

Lemma handleChangeText_sound (text : string) :
  (CpfInput.handleChangeText text).2 = true ->
  Validators.isCpfValid (CpfInput.handleChangeText text).1 = true.
Proof.
  unfold CpfInput.handleChangeText. cbv zeta. cbn [fst snd].
  destruct (Js.length_utf16 _ =? 14)%nat; [auto | discriminate].
Qed.

(** The flag of the form is never ahead of the CPF it holds. *)
Lemma form_flag_sound (events : list LoginScreen.Event) :
  let f := fold_left LoginScreen.handle events LoginScreen.initialForm in
  LoginScreen.isCpfValid f = true ->
  Validators.isCpfValid (LoginScreen.cpf f) = true.
Proof.
  induction events as [|e events IH] using rev_ind; [discriminate|].
  rewrite fold_left_app. cbn [fold_left].
  set (f := fold_left LoginScreen.handle events LoginScreen.initialForm) in *.
  cbv zeta in IH. destruct e as [text| |text]; cbn [LoginScreen.handle].
  - pose proof (handleChangeText_sound text) as Hs.
    destruct (CpfInput.handleChangeText text) as [formatted flag].
    cbn [fst snd LoginScreen.isCpfValid LoginScreen.cpf] in *. exact Hs.
  - unfold CpfInput.handleBlur. destruct (LoginScreen.cpf f) as [|c r] eqn:E.
    + rewrite E. exact IH.
    + cbn [LoginScreen.isCpfValid LoginScreen.cpf]. auto.
  - exact IH.
Qed.

(** X19. [handleLogin] never rejects.  With a form that is not valid it
    does nothing at all: no request is dispatched and no alert is shown.
    With a valid form, a login the service resolves leaves the auth state
    authenticated and shows no alert, and a login the service rejects
    shows one alert, with the message of the error (or the fallback text
    when what was thrown is no [Error]), and leaves the failure state. *)
Theorem handleLogin_outcome (AuthService : AuthService.Api)
    (f : LoginScreen.Form) (w : UseAuth.World) :
  let credentials :=
    mkCredentials (LoginScreen.cpf f) (LoginScreen.password f) in
  (LoginScreen.isFormValid f = false ->
   LoginScreen.handleLogin AuthService f w = (Async.Resolved None, w))
  /\ (LoginScreen.isFormValid f = true ->
      match AuthService.api_login AuthService credentials (UseAuth.storage w) with
      | (Async.Resolved response, st') =>
          LoginScreen.handleLogin AuthService f w
          = (Async.Resolved None,
             UseAuth.mkWorld
               (authenticated_as (resp_user response) (resp_token response))
               (UseAuth.isInitialized w) st')
      | (Async.Rejected e, st') =>
          let message :=
            match e with
            | Async.JsError m => m
            | Async.NonError => LoginScreen.login_alert_fallback
            end in
          let shown :=
            match e with
            | Async.JsError m => m
            | Async.NonError => "Failed to login"
            end in
          LoginScreen.handleLogin AuthService f w
          = (Async.Resolved (Some message),
             UseAuth.mkWorld
               (UseAuth.authReducer
                  (UseAuth.authReducer (UseAuth.state w) LOGIN_REQUEST)
                  (LOGIN_FAILURE shown))
               (UseAuth.isInitialized w) st')
      end).
Proof.
  intros credentials. unfold LoginScreen.handleLogin. split; intros ->.
  - reflexivity.
  - cbn [negb]. unfold Async.try_catch, Async.bind, UseAuth.login,
      Async.try_catch, Async.bind.
    cbn [UseAuth.dispatch fst snd]. rewrite HookProofs.service_run.
    cbn [UseAuth.storage UseAuth.state UseAuth.isInitialized].
    fold credentials.
    destruct (AuthService.api_login AuthService credentials (UseAuth.storage w))
      as [[response|[m|]] st']; reflexivity.
Qed.

Lemma handleLogin_outcome_witness :
  let codec := StoreSpec.sample_codec (resp_user AuthService.mock_response) in
  let w := UseAuth.mount (AsyncStorage.mk ∅ []) in
  LoginScreen.handleLogin AuthService.api
    (LoginScreen.mkForm "529.982.247-2" "password123" false) w
  = (Async.Resolved None, w).
Proof.
  intros codec w.
  destruct (handleLogin_outcome (@AuthService.api codec)
              (LoginScreen.mkForm "529.982.247-2" "password123" false) w)
    as [H _].
  apply H. reflexivity.
Defined.

(** X20. Nobody logs in through the login screen with the mock service.
    Whatever is typed into the two fields, in whatever order, pressing the
    button either does nothing (the form is not valid) or ends in the alert
    for invalid credentials with the auth state not authenticated and the
    store untouched: the one CPF the service accepts is not a valid CPF, so
    the field never reports it valid. *)
Theorem screen_login_never_succeeds {codec : JSON.Codec}
    (events : list LoginScreen.Event) (w : UseAuth.World) :
  let f := fold_left LoginScreen.handle events LoginScreen.initialForm in
  Validators.isCpfValid "123.456.789-10" = false
  /\ (LoginScreen.handleLogin AuthService.api f w = (Async.Resolved None, w)
      \/ exists w',
           LoginScreen.handleLogin AuthService.api f w
           = (Async.Resolved (Some AuthService.invalid_credentials), w')
           /\ isAuthenticated (UseAuth.state w') = false
           /\ error (UseAuth.state w') = Some AuthService.invalid_credentials
           /\ UseAuth.storage w' = UseAuth.storage w).
Proof.
  intros f. split; [reflexivity|].
  destruct (LoginScreen.isFormValid f) eqn:Hvalid.
  - right.
    assert (Validators.isCpfValid (LoginScreen.cpf f) = true) as Hcpf.
    { apply form_flag_sound. unfold LoginScreen.isFormValid in Hvalid.
      now apply andb_true_iff in Hvalid as [H _]. }
    assert ((LoginScreen.cpf f =? "123.456.789-10")%string = false) as Hne.
    { destruct (String.eqb_spec (LoginScreen.cpf f) "123.456.789-10") as [E|E];
        [|reflexivity]. rewrite E in Hcpf. discriminate Hcpf. }
    unfold LoginScreen.handleLogin. rewrite Hvalid. cbn [negb].
    unfold Async.try_catch, Async.bind, UseAuth.login, Async.try_catch, Async.bind.
    cbn [UseAuth.dispatch fst snd]. rewrite HookProofs.service_run.
    cbn [UseAuth.storage UseAuth.state UseAuth.isInitialized
         AuthService.api AuthService.api_login].
    unfold AuthService.login. cbn [cred_cpf cred_password]. rewrite Hne.
    cbn [andb fst snd Async.throw]. eexists. split; [reflexivity|].
    cbn. repeat split.
  - left. unfold LoginScreen.handleLogin. rewrite Hvalid. reflexivity.
Qed.

Lemma screen_login_never_succeeds_witness :
  let codec := StoreSpec.sample_codec (resp_user AuthService.mock_response) in
  let w := UseAuth.mount (AsyncStorage.mk ∅ []) in
  let f :=
    fold_left LoginScreen.handle
      [LoginScreen.CpfChangeText "52998224725";
       LoginScreen.PasswordChangeText "password123"]
      LoginScreen.initialForm in
  LoginScreen.isFormValid f = true
  /\ exists w',
       LoginScreen.handleLogin AuthService.api f w
       = (Async.Resolved (Some AuthService.invalid_credentials), w')
       /\ isAuthenticated (UseAuth.state w') = false.
Proof.
  intros codec w f. split; [reflexivity|].
  destruct (@screen_login_never_succeeds codec
              [LoginScreen.CpfChangeText "52998224725";
               LoginScreen.PasswordChangeText "password123"] w)
    as [_ [Hnothing|(w' & Hrun & Hauth & _)]].
  - exfalso. unfold LoginScreen.handleLogin in Hnothing.
    change (LoginScreen.isFormValid
              (fold_left LoginScreen.handle
                 [LoginScreen.CpfChangeText "52998224725";
                  LoginScreen.PasswordChangeText "password123"]
                 LoginScreen.initialForm)) with true in Hnothing.
    cbn [negb] in Hnothing.
    unfold Async.try_catch, Async.bind, UseAuth.login, Async.try_catch,
      Async.bind in Hnothing.
    cbn [UseAuth.dispatch fst snd] in Hnothing.
    rewrite HookProofs.service_run in Hnothing.
    cbn in Hnothing. discriminate Hnothing.
  - exists w'. split; assumption.
Defined.

End ScreenExtras.

(** ** The storage probe of the root layout *)

Module LayoutExtras.
Import RootLayout LayoutSpec.

Ltac run_probe :=
  unfold testAsyncStorage, Async.try_catch, Async.bind, Async.ret,
    AsyncStorage.setItem, AsyncStorage.getItem, AsyncStorage.removeItem,
    AsyncStorage.call;
  cbn [AsyncStorage.faults AsyncStorage.items fst snd];
  rewrite ?lookup_insert_eq;
  rewrite ?(bool_decide_eq_true_2 (Some "test" = Some "test") eq_refl).

Lemma testAsyncStorage_run (st : AsyncStorage.t) :
  exists st',
    testAsyncStorage st = (Async.Resolved (three_calls_go_through st), st')
    /\ (forall k, k <> TEST_KEY ->
          AsyncStorage.items st' !! k = AsyncStorage.items st !! k)
    /\ (three_calls_go_through st = true ->
        AsyncStorage.items st' !! TEST_KEY = None).
Proof.
  destruct st as [m fs]. unfold three_calls_go_through.
  cbn [AsyncStorage.faults].
  destruct fs as [|[] [|[] [|[] [|[] fs]]]]; run_probe;
    eexists; (split; [reflexivity|]); cbn [AsyncStorage.items];
    (split; [intros k Hk; rewrite ?lookup_delete_ne, ?lookup_insert_ne by congruence;
             reflexivity
            | try discriminate; intros _; apply lookup_delete_eq]).
Qed.

(** X21. The storage probe never rejects and answers [true] exactly when
    its first three native calls (set, get, remove) all go through; then
    the test key is gone.  Whatever fails, every other key of the store,
    the session keys among them, is as it was. *)
Theorem testAsyncStorage_outcome (st : AsyncStorage.t) :
  exists st',
    testAsyncStorage st = (Async.Resolved (three_calls_go_through st), st')
    /\ (forall k, k <> TEST_KEY ->
          AsyncStorage.items st' !! k = AsyncStorage.items st !! k)
    /\ AsyncStorage.items st' !! AuthService.AUTH_TOKEN_KEY
       = AsyncStorage.items st !! AuthService.AUTH_TOKEN_KEY
    /\ AsyncStorage.items st' !! AuthService.USER_DATA_KEY
       = AsyncStorage.items st !! AuthService.USER_DATA_KEY
    /\ (three_calls_go_through st = true ->
        AsyncStorage.items st' !! TEST_KEY = None).
Proof.
  destruct (testAsyncStorage_run st) as (st' & Hrun & Hframe & Hgone).
  exists st'. split; [exact Hrun|]. split; [exact Hframe|].
  split; [apply Hframe; discriminate|]. split; [apply Hframe; discriminate|].
  exact Hgone.
Qed.

(** X22. [prepare] never rejects and always makes the app ready; the
    layout then renders the app when the probe's three calls went through
    and the storage error screen otherwise, never the loading view. *)
Theorem prepare_outcome (st : AsyncStorage.t) :
  let r := prepare (mount st) in
  r.1 = Async.Resolved tt
  /\ appIsReady r.2 = true
  /\ asyncStorageError r.2 = negb (three_calls_go_through st)
  /\ render r.2 = (if three_calls_go_through st then App else StorageError)
  /\ render (mount st) = Loading.
Proof.
  intros r. subst r.
  unfold prepare, Async.finally, Async.try_catch, Async.bind, Async.lift.
  cbn [mount storage].
  destruct (testAsyncStorage_run st) as (st' & -> & _).
  destruct (three_calls_go_through st); cbn; repeat split.
Qed.

End LayoutExtras.

(** ** The password and e-mail validators *)

Module ValidatorExtras.
Import Js Validators CpfSpec RegexSpec.

Lemma append_cons (x : ascii) (r q : string) :
  String x r +:+ q = String x (r +:+ q).
Proof. reflexivity. Qed.

Lemma append_nil_r (s : string) : s +:+ EmptyString = s.
Proof.
  induction s as [|x r IH]; [reflexivity|]. now rewrite append_cons, IH.
Qed.

Lemma append_assoc (a b c : string) : (a +:+ b) +:+ c = a +:+ (b +:+ c).
Proof.
  induction a as [|x r IH]; [reflexivity|]. now rewrite !append_cons, IH.
Qed.

Lemma length_utf16_app (p q : string) :
  length_utf16 (p +:+ q) = (length_utf16 p + length_utf16 q)%nat.
Proof.
  induction p as [|c r IH]; [reflexivity|].
  rewrite append_cons. simpl. rewrite IH. lia.
Qed.

Lemma test_class_app (f : ascii -> bool) (p q : string) :
  test_class f (p +:+ q) = test_class f p || test_class f q.
Proof.
  induction p as [|c r IH]; [reflexivity|].
  rewrite append_cons. simpl. rewrite IH. apply orb_assoc.
Qed.

Lemma digit_is_no_letter (c : ascii) : is_digit c = true -> is_letter c = false.
Proof.
  unfold is_digit, is_letter. cbv zeta.
  intros [H1 H2]%andb_true_iff. apply Nat.leb_le in H1, H2.
  destruct (Nat.leb_spec 65 (nat_of_ascii c)); [lia|].
  destruct (Nat.leb_spec 97 (nat_of_ascii c)); [lia|]. reflexivity.
Qed.

Lemma letter_is_no_digit (c : ascii) : is_letter c = true -> is_digit c = false.
Proof.
  intros H. destruct (is_digit c) eqn:E; [|reflexivity].
  rewrite (digit_is_no_letter c E) in H. discriminate H.
Qed.

(** X23. The password rule is closed under extension and needs both kinds
    of character: a valid password stays valid when anything is put before
    or after it, and a password made of digits only, or of letters only, is
    never valid, however long. *)
Theorem isPasswordValid_policy :
  (forall p q : string,
     isPasswordValid p = true ->
     isPasswordValid (p +:+ q) = true /\ isPasswordValid (q +:+ p) = true)
  /\ (forall p : string, all_digits p = true -> isPasswordValid p = false)
  /\ (forall p : string, all_in is_letter p = true -> isPasswordValid p = false).
Proof.
  split; [|split].
  - intros p q. unfold isPasswordValid.
    rewrite !andb_true_iff, !Nat.leb_le, !length_utf16_app, !test_class_app,
      !orb_true_iff.
    intros [[Hlen Hl] Hd]. repeat split; auto; lia.
  - intros p Hp. unfold isPasswordValid.
    assert (test_class is_letter p = false) as ->;
      [|now rewrite andb_false_r].
    induction p as [|c r IH]; [reflexivity|]. simpl in *.
    apply andb_true_iff in Hp as [Hc Hr].
    rewrite (digit_is_no_letter c Hc). apply IH, Hr.
  - intros p Hp. unfold isPasswordValid.
    assert (test_class is_digit p = false) as ->;
      [|now rewrite andb_false_r].
    induction p as [|c r IH]; [reflexivity|]. simpl in *.
    apply andb_true_iff in Hp as [Hc Hr].
    rewrite (letter_is_no_digit c Hc). apply IH, Hr.
Qed.

Lemma isPasswordValid_policy_witness :
  isPasswordValid ("senha1" +:+ "!") = true
  /\ isPasswordValid "1234567890" = false
  /\ isPasswordValid "password" = false.
Proof.
  destruct isPasswordValid_policy as (Hext & Hdigits & Hletters).
  split; [apply (Hext "senha1" "!"); reflexivity|].
  split; [apply Hdigits | apply Hletters]; reflexivity.
Defined.

(** *** The matcher decides the language *)

Lemma append_eq_nil (a b : string) :
  a +:+ b = EmptyString -> a = EmptyString /\ b = EmptyString.
Proof. destruct a; [auto | discriminate]. Qed.

Lemma lang_cat_inv (a b : Regex.t) (s : string) :
  lang (Regex.Cat a b) s
  <-> exists s1 s2, s = s1 +:+ s2 /\ lang a s1 /\ lang b s2.
Proof.
  split.
  - intros H. inversion H; subst. eauto.
  - intros (s1 & s2 & -> & H1 & H2). now constructor.
Qed.

Lemma lang_class_inv (p : ascii -> bool) (s : string) :
  lang (Regex.Class p) s <-> exists c, s = String c EmptyString /\ p c = true.
Proof.
  split.
  - intros H. inversion H; subst. eauto.
  - intros (c & -> & H). now constructor.
Qed.

Lemma lang_alt_inv (a b : Regex.t) (s : string) :
  lang (Regex.Alt a b) s <-> lang a s \/ lang b s.
Proof.
  split.
  - intros H. inversion H; subst; auto.
  - intros [H|H]; [apply lang_alt_l | apply lang_alt_r]; exact H.
Qed.

Lemma nullable_lang (r : Regex.t) :
  Regex.nullable r = true <-> lang r EmptyString.
Proof.
  induction r as [| |p|a IHa b IHb|a IHa b IHb|a IHa]; simpl.
  - split; [discriminate | intros H; inversion H].
  - split; [constructor | reflexivity].
  - split; [discriminate | intros H; inversion H].
  - rewrite andb_true_iff, IHa, IHb, lang_cat_inv. split.
    + intros [H1 H2]. exists EmptyString, EmptyString. auto.
    + intros (s1 & s2 & E & H1 & H2). symmetry in E.
      apply append_eq_nil in E as [-> ->]. auto.
  - rewrite orb_true_iff, IHa, IHb, lang_alt_inv. reflexivity.
  - split; [constructor | reflexivity].
Qed.

(** A non-empty match of a repetition starts with a non-empty match of
    its body. *)
Lemma lang_star_cons_inv (a : Regex.t) (c : ascii) (s : string) :
  lang (Regex.Star a) (String c s) ->
  exists s1 s2, s = s1 +:+ s2 /\ lang a (String c s1) /\ lang (Regex.Star a) s2.
Proof.
  intros H. remember (Regex.Star a) as r eqn:Er.
  remember (String c s) as str eqn:Es.
  revert s Es.
  induction H as [| | | | | |a' s1 s2 H1 _ H2 IH2]; intros rest Es;
    try discriminate.
  injection Er as ->. destruct s1 as [|c1 s1].
  - apply IH2; [reflexivity | exact Es].
  - rewrite append_cons in Es. injection Es as Hc Hs. subst c1 rest. eauto.
Qed.

Lemma deriv_lang (c : ascii) (r : Regex.t) :
  forall s : string, lang (Regex.deriv c r) s <-> lang r (String c s).
Proof.
  induction r as [| |p|a IHa b IHb|a IHa b IHb|a IHa]; intros s; simpl.
  - split; intros H; inversion H.
  - split; intros H; inversion H.
  - rewrite lang_class_inv. destruct (p c) eqn:Hp.
    + split.
      * intros H. inversion H; subst. eauto.
      * intros (c' & E & _). injection E as <- ->. constructor.
    + split; [intros H; inversion H|].
      intros (c' & E & H). injection E as <- ->. congruence.
  - assert (lang (Regex.Cat (Regex.deriv c a) b) s
            <-> exists s1 s2, s = s1 +:+ s2 /\ lang a (String c s1) /\ lang b s2)
      as Hcat.
    { rewrite lang_cat_inv. split; intros (s1 & s2 & E & H1 & H2);
        exists s1, s2; (split; [exact E|]); (split; [|exact H2]);
        now apply IHa. }
    rewrite (lang_cat_inv a b). destruct (Regex.nullable a) eqn:Hn.
    + rewrite lang_alt_inv, Hcat, IHb. split.
      * intros [(s1 & s2 & -> & H1 & H2)|H].
        -- exists (String c s1), s2. rewrite append_cons. auto.
        -- exists EmptyString, (String c s). split; [reflexivity|].
           split; [now apply nullable_lang | exact H].
      * intros (s1 & s2 & E & H1 & H2). destruct s1 as [|c1 s1].
        -- right. change (EmptyString +:+ s2) with s2 in E. now subst s2.
        -- left. rewrite append_cons in E. injection E as <- ->. eauto.
    + rewrite Hcat. split.
      * intros (s1 & s2 & -> & H1 & H2).
        exists (String c s1), s2. rewrite append_cons. auto.
      * intros (s1 & s2 & E & H1 & H2). destruct s1 as [|c1 s1].
        -- apply nullable_lang in H1. congruence.
        -- rewrite append_cons in E. injection E as <- ->. eauto.
  - rewrite !lang_alt_inv, IHa, IHb. reflexivity.
  - rewrite lang_cat_inv. split.
    + intros (s1 & s2 & -> & H1 & H2). apply IHa in H1.
      change (String c (s1 +:+ s2)) with (String c s1 +:+ s2).
      now constructor.
    + intros H. apply lang_star_cons_inv in H as (s1 & s2 & -> & H1 & H2).
      exists s1, s2. split; [reflexivity|]. split; [now apply IHa | exact H2].
Qed.

Lemma test_lang (s : string) :
  forall r : Regex.t, Regex.test r s = true <-> lang r s.
Proof.
  induction s as [|c s IH]; intros r; simpl.
  - apply nullable_lang.
  - rewrite IH. apply deriv_lang.
Qed.

(** *** Repetitions of one class *)

Lemma lang_star_class (p : ascii -> bool) (s : string) :
  lang (Regex.Star (Regex.Class p)) s <-> all_in p s = true.
Proof.
  split.
  - revert p. induction s as [|c s IH]; intros p H; [reflexivity|].
    apply lang_star_cons_inv in H as (s1 & s2 & -> & H1 & H2).
    apply lang_class_inv in H1 as (c' & E & Hp). injection E as <- ->.
    simpl. rewrite Hp. apply IH, H2.
  - induction s as [|c s IH]; simpl; [constructor|].
    intros [Hc Hs]%andb_true_iff.
    change (String c s) with (String c EmptyString +:+ s).
    constructor; [now constructor | auto].
Qed.

Lemma lang_plus_class (p : ascii -> bool) (s : string) :
  lang (Regex.Plus (Regex.Class p)) s <-> s <> EmptyString /\ all_in p s = true.
Proof.
  unfold Regex.Plus. rewrite lang_cat_inv. split.
  - intros (s1 & s2 & -> & H1 & H2).
    apply lang_class_inv in H1 as (c & -> & Hp). apply lang_star_class in H2.
    change (String c EmptyString +:+ s2) with (String c s2).
    simpl. rewrite Hp, H2. split; [discriminate | reflexivity].
  - intros [Hne Hall]. destruct s as [|c s]; [contradiction|].
    simpl in Hall. apply andb_true_iff in Hall as [Hc Hs].
    exists (String c EmptyString), s. split; [reflexivity|].
    split; [now constructor | now apply lang_star_class].
Qed.

Lemma lang_at_least_2 (p : ascii -> bool) (s : string) :
  lang (Regex.AtLeast2 (Regex.Class p)) s
  <-> (2 <= String.length s)%nat /\ all_in p s = true.
Proof.
  unfold Regex.AtLeast2. rewrite lang_cat_inv. split.
  - intros (s1 & s2 & -> & H1 & H2).
    apply lang_class_inv in H1 as (c & -> & Hp).
    apply (lang_plus_class p) in H2 as [Hne Hall].
    change (String c EmptyString +:+ s2) with (String c s2).
    simpl. rewrite Hp, Hall.
    destruct s2; [contradiction|]. simpl. split; [lia | reflexivity].
  - intros [Hlen Hall]. destruct s as [|c [|c' s]]; simpl in Hlen; try lia.
    simpl in Hall. apply andb_true_iff in Hall as [Hc Hs].
    exists (String c EmptyString), (String c' s). split; [reflexivity|].
    split; [now constructor|]. apply (lang_plus_class p).
    split; [discriminate | exact Hs].
Qed.

Lemma lang_char (x : ascii) (s : string) :
  lang (Regex.Class (EmailValidator.is_char x)) s <-> s = String x EmptyString.
Proof.
  rewrite lang_class_inv. unfold EmailValidator.is_char. split.
  - intros (c & -> & H). apply Ascii.eqb_eq in H. now subst.
  - intros ->. exists x. split; [reflexivity | apply Ascii.eqb_refl].
Qed.

Lemma isEmailValid_iff_shape (s : string) :
  EmailValidator.isEmailValid s = true <-> email_shape s.
Proof.
  unfold EmailValidator.isEmailValid, EmailValidator.emailRegex, email_shape.
  rewrite test_lang. split.
  - intros H.
    apply lang_cat_inv in H as (l & r1 & -> & Hl & H).
    apply lang_cat_inv in H as (a & r2 & -> & Ha & H).
    apply lang_cat_inv in H as (d & r3 & -> & Hd & H).
    apply lang_cat_inv in H as (o & t & -> & Ho & Ht).
    apply lang_plus_class in Hl as [Hl1 Hl2]. apply lang_char in Ha as ->.
    apply lang_plus_class in Hd as [Hd1 Hd2]. apply lang_char in Ho as ->.
    apply lang_at_least_2 in Ht as [Ht1 Ht2].
    exists l, d, t. repeat split; assumption.
  - intros (l & d & t & -> & Hl1 & Hl2 & Hd1 & Hd2 & Ht1 & Ht2).
    repeat (apply lang_cat; [|]);
      try (apply lang_plus_class; split; assumption);
      try (apply lang_char; reflexivity).
    apply lang_at_least_2. split; assumption.
Qed.

Lemma count_char_app (x : ascii) (a b : string) :
  count_char x (a +:+ b) = (count_char x a + count_char x b)%nat.
Proof.
  induction a as [|c r IH]; [reflexivity|].
  rewrite append_cons. simpl. rewrite IH. lia.
Qed.

Lemma count_char_outside (p : ascii -> bool) (x : ascii) (s : string) :
  p x = false -> all_in p s = true -> count_char x s = 0%nat.
Proof.
  intros Hx. induction s as [|c r IH]; [reflexivity|]. simpl.
  intros [Hc Hr]%andb_true_iff. rewrite (IH Hr).
  destruct (Ascii.eqb_spec c x) as [->|_]; [congruence | reflexivity].
Qed.

Lemma length_app (a b : string) :
  String.length (a +:+ b) = (String.length a + String.length b)%nat.
Proof.
  induction a as [|c r IH]; [reflexivity|].
  rewrite append_cons. simpl. now rewrite IH.
Qed.

(** X24. [isEmailValid] accepts exactly the addresses [local@domain.tld]
    whose local part is a non-empty run of letters, digits and [._%+-],
    whose domain is a non-empty run of letters, digits, dots and hyphens,
    and whose last label is two letters or more.  So an accepted address
    holds exactly one [@] and no blank, and has six characters at least. *)
Theorem isEmailValid_shape (s : string) :
  (EmailValidator.isEmailValid s = true <-> email_shape s)
  /\ (EmailValidator.isEmailValid s = true ->
      count_char "@" s = 1%nat
      /\ count_char " " s = 0%nat
      /\ (6 <= String.length s)%nat).
Proof.
  split; [apply isEmailValid_iff_shape|].
  intros H. apply isEmailValid_iff_shape in H
    as (l & d & t & -> & Hl1 & Hl2 & Hd1 & Hd2 & Ht1 & Ht2).
  rewrite !count_char_app, !length_app.
  rewrite (count_char_outside _ "@" l eq_refl Hl2).
  rewrite (count_char_outside _ "@" d eq_refl Hd2).
  rewrite (count_char_outside _ "@" t eq_refl Ht2).
  rewrite (count_char_outside _ " " l eq_refl Hl2).
  rewrite (count_char_outside _ " " d eq_refl Hd2).
  rewrite (count_char_outside _ " " t eq_refl Ht2).
  destruct l; [contradiction|]. destruct d; [contradiction|].
  simpl. repeat split; lia.
Qed.

Lemma isEmailValid_shape_witness :
  email_shape "john@example.com"
  /\ count_char "@" "john@example.com" = 1%nat.
Proof.
  destruct (isEmailValid_shape "john@example.com") as [Hiff Hfacts].
  split; [apply Hiff; reflexivity|].
  destruct (Hfacts eq_refl) as [H _]. exact H.
Defined.

End ValidatorExtras.
